(** * alertmanager-stomp-forwarder: the forwarding pipeline of [main.go]

    A shallow embedding of [alertPOSTHandler], [unmarshalAlerts] and
    [sendAlertToStomp], with the broker, the metrics registry, the response
    writer and the logger as explicit state.

    What lies outside the repository is kept abstract or modelled by its
    documented behaviour:
    - [encoding/json]: the text level (lexing, escaping, printing) and the
      reading of a number as a float64 are parameters; the value level
      follows the struct tags of the source, for [json.Marshal] on an
      [Alert] and for [json.Unmarshal] into an [Alerts];
    - [go-stomp]: the broker answers through an oracle that sees the history
      of the connection events;
    - [logrus]: [Fatalf] writes the entry and then calls the logger's exit
      function, which for a logger made by [logrus.New()] is [os.Exit]. *)

From stdpp Require Import gmap strings list fin_maps pretty sorting.
From Stdlib Require Import ZArith Strings.Byte.

(** ** JSON values *)

(** The value level of a JSON text.  Go's [interface{}] holds such a value
    after decoding, in the form in which [json.Marshal] writes it back: a
    number as the literal of its float64, an object with its keys distinct
    and sorted ([to_interface] below brings a value of the text into that
    form). *)
#[local] Unset Elimination Schemes.
Inductive JSON : Type :=
| JNull
| JBool (b : bool)
| JNumber (literal : string)
| JString (s : string)
| JArray (items : list JSON)
| JObject (members : list (string * JSON)).
#[local] Set Elimination Schemes.

(** The member of an object under key [k] (the first one, if any). *)
Fixpoint assoc (k : string) (members : list (string * JSON)) : option JSON :=
  match members with
  | [] => None
  | (k', v) :: rest => if decide (k = k') then Some v else assoc k rest
  end.

Definition member (k : string) (j : JSON) : option JSON :=
  match j with
  | JObject members => assoc k members
  | _ => None
  end.

(** ** Data model (main.go, lines 22-40) *)

(** A Go map is [nil] or a finite map: [option (gmap _ _)]. *)
Record Alert : Type := mkAlert {
  Annotations : option (gmap string JSON);
  EndsAt : string;
  GeneratorURL : string;
  Labels : option (gmap string string);
  StartsAt : string
}.

Record Alerts : Type := mkAlerts {
  Alerts_Alerts : list Alert;
  CommonAnnotations : option (gmap string JSON);
  CommonLabels : option (gmap string JSON);
  ExternalURL : string;
  GroupLabels : option (gmap string JSON);
  Receiver : string;
  Status : string
}.

(** The zero value of [var alerts Alerts]. *)
Definition Alerts_zero : Alerts :=
  mkAlerts [] None None "" None "" "".

Definition error : Type := string.

(** ** json.Marshal on an [Alert], value level *)

(** [encoding/json] writes the keys of a map in sorted order. *)
Definition key_le {V : Type} (a b : string * V) : Prop :=
  Is_true (String.leb a.1 b.1).

Global Instance key_le_dec {V : Type} (a b : string * V) :
  Decision (key_le a b).
Proof. unfold key_le. apply _. Defined.

Definition sorted_entries {V : Type} (m : gmap string V) : list (string * V) :=
  merge_sort key_le (map_to_list m).

Definition marshal_map {V : Type} (f : V → JSON)
    (m : option (gmap string V)) : JSON :=
  match m with
  | None => JNull
  | Some m => JObject (map (λ kv, (kv.1, f kv.2)) (sorted_entries m))
  end.

(** The fields in declaration order, under the names of their tags.  What
    the annotations hold is written as it is held. *)
Definition marshal_Alert (a : Alert) : JSON :=
  JObject
    [ ("annotations", marshal_map id (Annotations a));
      ("endsAt", JString (EndsAt a));
      ("generatorURL", JString (GeneratorURL a));
      ("labels", marshal_map JString (Labels a));
      ("startsAt", JString (StartsAt a)) ].

(** ** The process: metrics, response writer, wire, log *)

Inductive Event : Type :=
| EvDial (network addr login passcode : string) (err : option error)
| EvSend (destination contentType : string) (body : list byte)
    (err : option error)
| EvDisconnect (err : option error).

Inductive Level : Type := InfoLevel | FatalLevel.

Record World : Type := mkWorld {
  httpDuration : nat;                (* observations of the histogram *)
  httpCounter : gmap string nat;     (* by response_code *)
  amqRequests : gmap string nat;     (* by result *)
  status : option Z;                 (* last WriteHeader *)
  wire : list Event;                 (* broker traffic, oldest first *)
  logged : list (Level * string)     (* log entries, oldest first *)
}.

Definition World_zero : World := mkWorld 0 ∅ ∅ None [] [].

(** A call returns, or the process exits, or the goroutine panics. *)
Inductive Outcome (A : Type) : Type :=
| Returned (a : A)
| Exited (code : Z)
| Panicked (msg : string).
Arguments Returned {A} a.
Arguments Exited {A} code.
Arguments Panicked {A} msg.

Definition M (A : Type) : Type := World → Outcome A * World.

Definition ret {A : Type} (a : A) : M A := λ w, (Returned a, w).

Definition bind {A B : Type} (c : M A) (k : A → M B) : M B :=
  λ w, match c w with
       | (Returned a, w') => k a w'
       | (Exited code, w') => (Exited code, w')
       | (Panicked msg, w') => (Panicked msg, w')
       end.

Notation "x <- c ;; k" := (bind c (λ x, k))
  (at level 100, c at next level, right associativity).
Notation "c ;; k" := (bind c (λ _, k))
  (at level 100, right associativity).

Definition os_Exit {A : Type} (code : Z) : M A := λ w, (Exited code, w).
Definition panic {A : Type} (msg : string) : M A := λ w, (Panicked msg, w).

Definition nil_dereference : string :=
  "runtime error: invalid memory address or nil pointer dereference".

(** [for _, x := range xs { body }] *)
Fixpoint for_range {A : Type} (xs : list A) (body : A → M unit) : M unit :=
  match xs with
  | [] => ret tt
  | x :: rest => body x ;; for_range rest body
  end.

(** *** Prometheus *)

Definition Inc (label : string) (c : gmap string nat) : gmap string nat :=
  <[label := S (default 0 (c !! label))]> c.

Definition count (label : string) (c : gmap string nat) : nat :=
  default 0 (c !! label).

Definition ObserveDuration : M unit :=
  λ w, (Returned tt,
        mkWorld (S (httpDuration w)) (httpCounter w) (amqRequests w)
                (status w) (wire w) (logged w)).

Definition httpCounter_Inc (label : string) : M unit :=
  λ w, (Returned tt,
        mkWorld (httpDuration w) (Inc label (httpCounter w)) (amqRequests w)
                (status w) (wire w) (logged w)).

Definition amqRequests_Inc (label : string) : M unit :=
  λ w, (Returned tt,
        mkWorld (httpDuration w) (httpCounter w) (Inc label (amqRequests w))
                (status w) (wire w) (logged w)).

Definition Itoa (n : Z) : string := pretty n.

Definition StatusOK : Z := 200%Z.
Definition StatusInternalServerError : Z := 500%Z.

(** *** gin *)

Definition WriteHeader (code : Z) : M unit :=
  λ w, (Returned tt,
        mkWorld (httpDuration w) (httpCounter w) (amqRequests w)
                (Some code) (wire w) (logged w)).

(** What the handler reads of the request: the [topic] path parameter and
    the outcome of [io.ReadAll] on the body. *)
Record Context : Type := mkContext {
  Params_topic : string;
  Request_Body : list byte * option error
}.

(** *** logrus *)

(** The [ExitFunc] field of a logger: [os.Exit], or a function that
    returns. *)
Inductive exitFunc : Type := exit_process | exit_returns.

Record Logger : Type := mkLogger { ExitFunc : exitFunc }.

Definition logrus_New : Logger := mkLogger exit_process.

Definition emit (lvl : Level) (format : string) : M unit :=
  λ w, (Returned tt,
        mkWorld (httpDuration w) (httpCounter w) (amqRequests w)
                (status w) (wire w) (logged w ++ [(lvl, format)])).

Definition Infof (l : Logger) (format : string) : M unit :=
  emit InfoLevel format.

(** [Fatalf]: the entry, then [logger.Exit(1)]. *)
Definition Fatalf (l : Logger) (format : string) : M unit :=
  emit FatalLevel format ;;
  match ExitFunc l with
  | exit_process => os_Exit 1
  | exit_returns => ret tt
  end.

(** *** go-stomp *)

(** The broker decides each step from the traffic so far. *)
Record Broker : Type := mkBroker {
  Dial_err : list Event → option error;
  Send_err : list Event → string → string → list byte → option error;
  Disconnect_err : list Event → option error
}.

Record Conn : Type := mkConn { conn_serial : nat }.

Definition record (e : Event) : M unit :=
  λ w, (Returned tt,
        mkWorld (httpDuration w) (httpCounter w) (amqRequests w)
                (status w) (wire w ++ [e]) (logged w)).

(** [stomp.Dial]: a connection and [nil], or [nil] and an error. *)
Definition stomp_Dial (b : Broker) (network addr login passcode : string)
    : M (option Conn * option error) :=
  λ w, let err := Dial_err b (wire w) in
       (record (EvDial network addr login passcode err) ;;
        ret (match err with
             | None => (Some (mkConn (length (wire w))), None)
             | Some e => (None, Some e)
             end)) w.

(** [Conn.Send] on a pointer receiver: the receiver is dereferenced first. *)
Definition Conn_Send (b : Broker) (c : option Conn)
    (destination contentType : string) (body : list byte)
    : M (option error) :=
  match c with
  | None => panic nil_dereference
  | Some _ =>
      λ w, let err := Send_err b (wire w) destination contentType body in
           (record (EvSend destination contentType body err) ;; ret err) w
  end.

Definition Conn_Disconnect (b : Broker) (c : option Conn) : M (option error) :=
  match c with
  | None => panic nil_dereference
  | Some _ =>
      λ w, let err := Disconnect_err b (wire w) in
           (record (EvDisconnect err) ;; ret err) w
  end.

(** ** The program *)

Record Config : Type := mkConfig {
  stompAddr : string;
  stompUser : string;
  stompPass : string
}.

Section Program.

(** The flags, the two halves of [encoding/json] that work on text, the
    broker, and the package-level logger. *)
Variable cfg : Config.
Variable json_Unmarshal : list byte → Alerts → Alerts * option error.
Variable json_encode : JSON → list byte * option error.
Variable broker : Broker.
Variable log : Logger.

Definition json_Marshal (a : Alert) : list byte * option error :=
  json_encode (marshal_Alert a).

(** main.go, lines 183-190 *)
Definition unmarshalAlerts (requestBody : list byte)
    : Alerts * option error :=
  let alerts := Alerts_zero in
  let '(alerts, err) := json_Unmarshal requestBody alerts in
  match err with
  | Some e => (alerts, Some e)
  | None => (alerts, None)
  end.

(** main.go, lines 194-217 *)
Definition sendAlertToStomp (topic : string) (alert : Alert)
    : M (option error) :=
  let '(message, err) := json_Marshal alert in
  match err with
  | Some e =>
      Fatalf log "error while marshalling alert" ;;
      ret (Some e)
  | None =>
      Infof log "amq request {topic: %s, message: %s}" ;;
      r <- stomp_Dial broker "tcp" (stompAddr cfg)
             (stompUser cfg) (stompPass cfg) ;;
      let '(stompConn, err) := r in
      match err with
      | Some _ => Fatalf log "error while connecting to stomp: %s"
      | None => Infof log "connected to stomp endpoint"
      end ;;
      err <- Conn_Send broker stompConn topic "application/json" message ;;
      match err with
      | Some e =>
          Fatalf log "failed to send message to ActiveMQ broker: %v" ;;
          ret (Some e)
      | None =>
          _ <- Conn_Disconnect broker stompConn ;;
          ret None
      end
  end.

(** The body of the loop of lines 166-174. *)
Definition forward_one (topic : string) (alert : Alert) : M unit :=
  err <- sendAlertToStomp topic alert ;;
  match err with
  | Some _ =>
      ObserveDuration ;;
      amqRequests_Inc "not_ok" ;;
      Fatalf log "request for alert %s not successful"
  | None => ret tt
  end ;;
  amqRequests_Inc "ok".

(** main.go, lines 139-180 *)
Definition alertPOSTHandler (requestContext : Context) : M unit :=
  let topic := Params_topic requestContext in
  let '(requestBody, err) := Request_Body requestContext in
  match err with
  | Some _ =>
      ObserveDuration ;;
      httpCounter_Inc (Itoa StatusInternalServerError) ;;
      WriteHeader StatusInternalServerError ;;
      Fatalf log "the request body could not be extracted" ;;
      ret tt
  | None =>
      let '(alerts, err) := unmarshalAlerts requestBody in
      match err with
      | Some _ =>
          ObserveDuration ;;
          httpCounter_Inc (Itoa StatusInternalServerError) ;;
          WriteHeader StatusInternalServerError ;;
          Fatalf log "the request body could not be unmarshalled to an alerts object. reuqest body: %s. err: %s" ;;
          ret tt
      | None =>
          for_range (Alerts_Alerts alerts) (forward_one topic) ;;
          ObserveDuration ;;
          httpCounter_Inc (Itoa StatusOK) ;;
          WriteHeader StatusOK
      end
  end.

End Program.

(** main.go, line 43: [log = logrus.New()] *)
Definition log : Logger := logrus_New.

(** ** Observations on a run *)

(** The frames handed to the broker: destination, content type, body. *)
Definition sends (tr : list Event) : list (string * string * list byte) :=
  omap (λ e, match e with
             | EvSend d c body _ => Some (d, c, body)
             | _ => None
             end) tr.

(** The connection attempts. *)
Definition dials (tr : list Event) : list (option error) :=
  omap (λ e, match e with
             | EvDial _ _ _ _ err => Some err
             | _ => None
             end) tr.

(** The disconnect attempts. *)
Definition disconnects (tr : list Event) : list (option error) :=
  omap (λ e, match e with
             | EvDisconnect err => Some err
             | _ => None
             end) tr.

(** One connection at a time: each is opened, used for one frame and closed
    before the next is opened; only the last may stop short, at a refused
    connection or at a frame that was not taken. *)
Fixpoint round_trips (tr : list Event) : bool :=
  match tr with
  | [] => true
  | EvDial _ _ _ _ None :: EvSend _ _ _ None :: EvDisconnect _ :: rest =>
      round_trips rest
  | [EvDial _ _ _ _ (Some _)] => true
  | [EvDial _ _ _ _ None; EvSend _ _ _ (Some _)] => true
  | _ => false
  end.

(** ** The traffic of a publish *)

(** What [sendAlertToStomp] leaves alone: metrics and response. *)
Definition untouched (w w' : World) : Prop :=
  httpDuration w' = httpDuration w ∧ httpCounter w' = httpCounter w ∧
  amqRequests w' = amqRequests w ∧ status w' = status w.

Section Traffic.

Variable cfg : Config.
Variable json_encode : JSON → list byte * option error.
Variable broker : Broker.

Local Abbreviation message a := (json_Marshal json_encode a).1.

Definition dialled (err : option error) : Event :=
  EvDial "tcp" (stompAddr cfg) (stompUser cfg) (stompPass cfg) err.

Definition framed (topic : string) (msg : list byte) (err : option error)
    : Event :=
  EvSend topic "application/json" msg err.

(** The broker's answers to the publish of [msg] that starts after the
    traffic [tr]. *)
Definition dial_answer (tr : list Event) : option error :=
  Dial_err broker tr.

Definition send_answer (tr : list Event) (topic : string)
    (msg : list byte) : option error :=
  Send_err broker (tr ++ [dialled None]) topic "application/json" msg.

Definition disconnect_answer (tr : list Event) (topic : string)
    (msg : list byte) : option error :=
  Disconnect_err broker (tr ++ [dialled None; framed topic msg None]).

(** The traffic of a publish that did not complete. *)
Inductive stopped (topic : string) (msg : list byte) : list Event → Prop :=
| stopped_marshal : stopped topic msg []
| stopped_dial e : stopped topic msg [dialled (Some e)]
| stopped_send e :
    stopped topic msg [dialled None; framed topic msg (Some e)].

(** The traffic of the loop over [alerts] and how the loop ends: complete
    round trips, alert after alert, until the list is exhausted or a
    publish stops and the process exits with it. *)
Inductive forwarded (topic : string)
    : list Alert → list Event → Outcome unit → Prop :=
| forwarded_nil : forwarded topic [] [] (Returned tt)
| forwarded_cons a rest x new o :
    forwarded topic rest new o →
    forwarded topic (a :: rest)
      (dialled None :: framed topic (message a) None ::
       EvDisconnect x :: new) o
| forwarded_stop a rest new :
    stopped topic (message a) new →
    forwarded topic (a :: rest) new (Exited 1).

End Traffic.

(** ** json.Unmarshal into [Alerts], value level

    The decoder of [encoding/json] as the Go 1.20 toolchain of the
    Dockerfile has it, on the value that the text denotes.  Reading the
    text (the scanner, the unquoting of strings) and reading a number as a
    float64 are parameters. *)

Definition first_error (e1 e2 : option error) : option error :=
  match e1 with
  | Some e => Some e
  | None => e2
  end.

Definition kind (j : JSON) : string :=
  match j with
  | JNull => "null"
  | JBool _ => "bool"
  | JNumber _ => "number"
  | JString _ => "string"
  | JArray _ => "array"
  | JObject _ => "object"
  end.

(** An [UnmarshalTypeError]; the program only logs it. *)
Definition type_error (j : JSON) (type : string) : error :=
  "json: cannot unmarshal " +:+ kind j +:+ " into Go value of type " +:+ type.

(** *** Matching a key to a field *)

Definition code (c : Ascii.ascii) : N := Ascii.N_of_ascii c.

Definition is_letter (c : Ascii.ascii) : bool :=
  ((65 <=? code c)%N && (code c <=? 90)%N) ||
  ((97 <=? code c)%N && (code c <=? 122)%N).

(** A byte without the bit that tells the two cases of a letter apart. *)
Definition caseless (c : Ascii.ascii) : N :=
  if N.testbit (code c) 5 then (code c - 32)%N else code c.

Definition is_s (c : Ascii.ascii) : bool :=
  bool_decide (code c = 115%N) || bool_decide (code c = 83%N).

Definition is_k (c : Ascii.ascii) : bool :=
  bool_decide (code c = 107%N) || bool_decide (code c = 75%N).

(** A tag, which is ASCII, against a key, letters without regard to case:
    the long s (bytes 197 191) also stands for an s, the Kelvin sign (bytes
    226 132 170) for a k. *)
Fixpoint equalFold (tag key : string) : bool :=
  match tag with
  | EmptyString =>
      match key with
      | EmptyString => true
      | _ => false
      end
  | String sb tag' =>
      match key with
      | EmptyString => false
      | String tb key' =>
          if (code tb <? 128)%N then
            (if is_letter sb
             then bool_decide (caseless sb = caseless tb)
             else bool_decide (sb = tb))
            && equalFold tag' key'
          else if is_s sb then
            match key' with
            | String tb2 key'' =>
                bool_decide (code tb = 197%N) &&
                bool_decide (code tb2 = 191%N) && equalFold tag' key''
            | EmptyString => false
            end
          else if is_k sb then
            match key' with
            | String tb2 (String tb3 key'') =>
                bool_decide (code tb = 226%N) &&
                bool_decide (code tb2 = 132%N) &&
                bool_decide (code tb3 = 170%N) && equalFold tag' key''
            | _ => false
            end
          else false
      end
  end.

(** The field for a key: the one whose tag is the key, or else the first
    one whose tag matches it without regard to case; none for a key the
    struct does not know. *)
Definition field_of {F : Type} (fields : list (string * F)) (key : string)
    : option F :=
  match find (λ f, bool_decide (f.1 = key)) fields with
  | Some f => Some f.2
  | None => snd <$> find (λ f, equalFold f.1 key) fields
  end.

Inductive AlertField : Type :=
| F_annotations | F_endsAt | F_generatorURL | F_labels | F_startsAt.

Definition Alert_fields : list (string * AlertField) :=
  [ ("annotations", F_annotations); ("endsAt", F_endsAt);
    ("generatorURL", F_generatorURL); ("labels", F_labels);
    ("startsAt", F_startsAt) ].

Inductive AlertsField : Type :=
| F_alerts | F_commonAnnotations | F_commonLabels | F_externalURL
| F_groupLabels | F_receiver | F_status.

Definition Alerts_fields : list (string * AlertsField) :=
  [ ("alerts", F_alerts); ("commonAnnotations", F_commonAnnotations);
    ("commonLabels", F_commonLabels); ("externalURL", F_externalURL);
    ("groupLabels", F_groupLabels); ("receiver", F_receiver);
    ("status", F_status) ].

Definition Alert_zero : Alert := mkAlert None "" "" None "".

Section Decoder.

(** [strconv.ParseFloat] on a number literal, as the literal that
    [json.Marshal] writes for the float64; none for a literal out of
    range. *)
Variable float64 : string → option string.

(** What an [interface{}] holds for a value: a number as its float64, an
    object as a map (the last of repeated keys stays, the keys come out
    sorted when written). *)
Fixpoint to_interface (j : JSON) : JSON * option error :=
  match j with
  | JNumber literal =>
      match float64 literal with
      | Some written => (JNumber written, None)
      | None =>
          (JNull,
           Some ("json: cannot unmarshal number " +:+ literal +:+
                 " into Go value of type float64"))
      end
  | JArray items =>
      let decoded := map to_interface items in
      (JArray (map fst decoded), foldr first_error None (map snd decoded))
  | JObject members =>
      let decoded := map (λ kv, (kv.1, to_interface kv.2)) members in
      (JObject
         (sorted_entries
            (foldl (λ (m : gmap string JSON) kv, <[kv.1 := kv.2.1]> m)
               ∅ decoded)),
       foldr first_error None (map (λ kv, kv.2.2) decoded))
  | _ => (j, None)
  end.

(** Into a [string]: a string is stored, null has no effect. *)
Definition Unmarshal_string (j : JSON) (old : string)
    : string * option error :=
  match j with
  | JString s => (s, None)
  | JNull => (old, None)
  | _ => (old, Some (type_error j "string"))
  end.

(** Into a [map[string]interface{}]: null makes the map nil; an object is
    stored into the map there is, or into a new one. *)
Definition Unmarshal_interface_map (j : JSON)
    (old : option (gmap string JSON))
    : option (gmap string JSON) * option error :=
  match j with
  | JObject members =>
      let r :=
        foldl (λ (st : gmap string JSON * option error) kv,
                 let v := to_interface kv.2 in
                 (<[kv.1 := v.1]> st.1, first_error st.2 v.2))
          (default ∅ old, None) members in
      (Some r.1, r.2)
  | JNull => (None, None)
  | _ => (old, Some (type_error j "map[string]interface {}"))
  end.

(** Into a [map[string]string]: each value is stored into a fresh, empty
    string, which is what the key gets when the value is null or of
    another type. *)
Definition Unmarshal_string_map (j : JSON)
    (old : option (gmap string string))
    : option (gmap string string) * option error :=
  match j with
  | JObject members =>
      let r :=
        foldl (λ (st : gmap string string * option error) kv,
                 let v := Unmarshal_string kv.2 "" in
                 (<[kv.1 := v.1]> st.1, first_error st.2 v.2))
          (default ∅ old, None) members in
      (Some r.1, r.2)
  | JNull => (None, None)
  | _ => (old, Some (type_error j "map[string]string"))
  end.

Definition Unmarshal_Alert_member (st : Alert * option error)
    (kv : string * JSON) : Alert * option error :=
  let a := st.1 in
  match field_of Alert_fields kv.1 with
  | Some F_annotations =>
      let r := Unmarshal_interface_map kv.2 (Annotations a) in
      (mkAlert r.1 (EndsAt a) (GeneratorURL a) (Labels a) (StartsAt a),
       first_error st.2 r.2)
  | Some F_endsAt =>
      let r := Unmarshal_string kv.2 (EndsAt a) in
      (mkAlert (Annotations a) r.1 (GeneratorURL a) (Labels a) (StartsAt a),
       first_error st.2 r.2)
  | Some F_generatorURL =>
      let r := Unmarshal_string kv.2 (GeneratorURL a) in
      (mkAlert (Annotations a) (EndsAt a) r.1 (Labels a) (StartsAt a),
       first_error st.2 r.2)
  | Some F_labels =>
      let r := Unmarshal_string_map kv.2 (Labels a) in
      (mkAlert (Annotations a) (EndsAt a) (GeneratorURL a) r.1 (StartsAt a),
       first_error st.2 r.2)
  | Some F_startsAt =>
      let r := Unmarshal_string kv.2 (StartsAt a) in
      (mkAlert (Annotations a) (EndsAt a) (GeneratorURL a) (Labels a) r.1,
       first_error st.2 r.2)
  | None => st
  end.

(** Into an [Alert]: the members in the order of the text, each into the
    field it matches; null has no effect. *)
Definition Unmarshal_Alert (j : JSON) (old : Alert) : Alert * option error :=
  match j with
  | JObject members => foldl Unmarshal_Alert_member (old, None) members
  | JNull => (old, None)
  | _ => (old, Some (type_error j "main.Alert"))
  end.

(** The elements of an array into a slice: element [i] is decoded into
    what the backing array holds at [i], be it an element of the slice
    ([existing]), or one beyond its length ([spare]), or, once the array
    is full and has been grown by half (to 4 at least), a zero value. *)
Fixpoint Unmarshal_elements (items : list JSON)
    (done existing spare : list Alert)
    : list Alert * list Alert * option error :=
  match items with
  | [] => (done, existing ++ spare, None)
  | item :: items' =>
      let '(target, existing', spare') :=
        match existing with
        | x :: existing' => (x, existing', spare)
        | [] =>
            match spare with
            | s :: spare' => (s, [], spare')
            | [] =>
                let cap := length done in
                (Alert_zero, [],
                 replicate (Nat.max 4 (cap + cap / 2) - cap - 1) Alert_zero)
            end
        end in
      let r := Unmarshal_Alert item target in
      let '(l, sp, e) :=
        Unmarshal_elements items' (done ++ [r.1]) existing' spare' in
      (l, sp, first_error r.2 e)
  end.

(** Into a [[]Alert], given with what its backing array holds beyond its
    length: null and the empty array leave no backing array. *)
Definition Unmarshal_Alert_slice (j : JSON) (old spare : list Alert)
    : list Alert * list Alert * option error :=
  match j with
  | JArray [] => ([], [], None)
  | JArray items => Unmarshal_elements items [] old spare
  | JNull => ([], [], None)
  | _ => (old, spare, Some (type_error j "[]main.Alert"))
  end.

(** The state of the decoding of an [Alerts]: the struct, the backing
    array of its slice beyond the length, the first error. *)
Definition Unmarshal_Alerts_member
    (st : Alerts * list Alert * option error) (kv : string * JSON)
    : Alerts * list Alert * option error :=
  let '(a, spare, err) := st in
  match field_of Alerts_fields kv.1 with
  | Some F_alerts =>
      let '(l, spare', e) :=
        Unmarshal_Alert_slice kv.2 (Alerts_Alerts a) spare in
      (mkAlerts l (CommonAnnotations a) (CommonLabels a) (ExternalURL a)
         (GroupLabels a) (Receiver a) (Status a),
       spare', first_error err e)
  | Some F_commonAnnotations =>
      let r := Unmarshal_interface_map kv.2 (CommonAnnotations a) in
      (mkAlerts (Alerts_Alerts a) r.1 (CommonLabels a) (ExternalURL a)
         (GroupLabels a) (Receiver a) (Status a),
       spare, first_error err r.2)
  | Some F_commonLabels =>
      let r := Unmarshal_interface_map kv.2 (CommonLabels a) in
      (mkAlerts (Alerts_Alerts a) (CommonAnnotations a) r.1 (ExternalURL a)
         (GroupLabels a) (Receiver a) (Status a),
       spare, first_error err r.2)
  | Some F_externalURL =>
      let r := Unmarshal_string kv.2 (ExternalURL a) in
      (mkAlerts (Alerts_Alerts a) (CommonAnnotations a) (CommonLabels a) r.1
         (GroupLabels a) (Receiver a) (Status a),
       spare, first_error err r.2)
  | Some F_groupLabels =>
      let r := Unmarshal_interface_map kv.2 (GroupLabels a) in
      (mkAlerts (Alerts_Alerts a) (CommonAnnotations a) (CommonLabels a)
         (ExternalURL a) r.1 (Receiver a) (Status a),
       spare, first_error err r.2)
  | Some F_receiver =>
      let r := Unmarshal_string kv.2 (Receiver a) in
      (mkAlerts (Alerts_Alerts a) (CommonAnnotations a) (CommonLabels a)
         (ExternalURL a) (GroupLabels a) r.1 (Status a),
       spare, first_error err r.2)
  | Some F_status =>
      let r := Unmarshal_string kv.2 (Status a) in
      (mkAlerts (Alerts_Alerts a) (CommonAnnotations a) (CommonLabels a)
         (ExternalURL a) (GroupLabels a) (Receiver a) r.1,
       spare, first_error err r.2)
  | None => st
  end.

(** Into an [Alerts]: as for an [Alert]. *)
Definition Unmarshal_Alerts (j : JSON) (old : Alerts)
    : Alerts * option error :=
  match j with
  | JObject members =>
      let r := foldl Unmarshal_Alerts_member (old, [], None) members in
      (r.1.1, r.2)
  | JNull => (old, None)
  | _ => (old, Some (type_error j "main.Alerts"))
  end.

(** *** Payloads with an empty alerts array that fit the struct *)







(** The text into its value. *)
Variable parse : list byte → option JSON.

(** [json.Unmarshal(data, &alerts)]: a text that is no JSON text is
    refused before anything is stored. *)
Definition Unmarshal (data : list byte) (v : Alerts)
    : Alerts * option error :=
  match parse data with
  | Some j => Unmarshal_Alerts j v
  | None => (v, Some "invalid character looking for beginning of value")
  end.

End Decoder.

(** ** The traffic of a batch, publish by publish *)

Section Order.

Variable cfg : Config.
Variable json_encode : JSON → list byte * option error.
Variable broker : Broker.

(** What the alerts of a batch put on the wire after the traffic [tr] when
    they are published one after the other, each in a connection of its
    own, in the order of the batch, until one does not marshal, is refused
    its connection or is not taken. *)
Fixpoint published_in_order (tr : list Event) (topic : string)
    (alerts : list Alert) : list Event :=
  match alerts with
  | [] => []
  | a :: rest =>
      match json_Marshal json_encode a with
      | (_, Some _) => []
      | (msg, None) =>
          match dial_answer broker tr with
          | Some e => [dialled cfg (Some e)]
          | None =>
              match send_answer cfg broker tr topic msg with
              | Some e => [dialled cfg None; framed topic msg (Some e)]
              | None =>
                  let trip :=
                    [dialled cfg None; framed topic msg None;
                     EvDisconnect
                       (disconnect_answer cfg broker tr topic msg)] in
                  trip ++ published_in_order (tr ++ trip) topic rest
              end
          end
      end
  end.

End Order.

(** The [labels] member of a value holds exactly the pairs of a map of
    labels: null for a nil map, and otherwise an object without repeated
    keys in which a key is paired with a value if and only if the value is
    the string that the map holds under the key. *)
Definition carries_labels (j : JSON) (labels : option (gmap string string))
    : Prop :=
  match labels with
  | None => member "labels" j = Some JNull
  | Some m =>
      ∃ members,
        member "labels" j = Some (JObject members) ∧
        NoDup members.*1 ∧
        ∀ k x, (k, x) ∈ members ↔ ∃ v, m !! k = Some v ∧ x = JString v
  end.

(** ** Further observations *)

(** An event that the broker answered without an error; a disconnect
    counts whatever it answered, as the program discards its answer. *)
Definition accepted (e : Event) : bool :=
  match e with
  | EvDial _ _ _ _ None => true
  | EvSend _ _ _ None => true
  | EvDisconnect _ => true
  | _ => false
  end.

Definition is_info (entry : Level * string) : bool :=
  match entry.1 with
  | InfoLevel => true
  | FatalLevel => false
  end.

(** The events a request for [topic] can put on the wire: a connection
    attempt over tcp to the configured address with the configured
    credentials, a JSON frame to the topic, a disconnect. *)
Definition of_request (cfg : Config) (topic : string) (e : Event) : Prop :=
  (∃ err, e = dialled cfg err) ∨
  (∃ msg err, e = framed topic msg err) ∨
  (∃ err, e = EvDisconnect err).

(** The duration histogram and the HTTP counter agree: as many
    observations as answers counted under 200 and 500. *)
Definition in_step (w : World) : Prop :=
  httpDuration w
  = count "200" (httpCounter w) + count "500" (httpCounter w).

(** A computation that is steered by the traffic alone: from two states
    with the same traffic it ends the same way, with the same value and the
    same traffic, whatever the metrics, the response and the log hold. *)
Definition wire_only {A : Type} (c : M A) : Prop :=
  ∀ w1 w2, wire w1 = wire w2 →
    (c w1).1 = (c w2).1 ∧ wire (c w1).2 = wire (c w2).2.

(** What a computation writes to the log: informational entries, closed by
    one fatal entry exactly when the process exits, and then with
    status 1. *)
Definition logs_well {A : Type} (c : M A) : Prop :=
  ∀ w, ∃ entries,
    logged (c w).2 = logged w ++ entries ∧
    match (c w).1 with
    | Exited code =>
        code = 1%Z ∧
        ∃ before format,
          entries = before ++ [(FatalLevel, format)] ∧
          forallb is_info before = true
    | _ => forallb is_info entries = true
    end.

(** ** Sample runs *)

Module Samples.

Definition dquote : string := String (Ascii.ascii_of_nat 34) EmptyString.
Definition quoted (s : string) : string := dquote +:+ s +:+ dquote.

(** A printer for values whose strings need no escaping. *)
Fixpoint print_JSON (j : JSON) : string :=
  match j with
  | JNull => "null"
  | JBool b => if b then "true" else "false"
  | JNumber literal => literal
  | JString s => quoted s
  | JArray items =>
      "[" +:+
      (fix go (l : list JSON) : string :=
         match l with
         | [] => ""
         | x :: r =>
             print_JSON x +:+ match r with [] => "" | _ => "," +:+ go r end
         end) items +:+ "]"
  | JObject members =>
      "{" +:+
      (fix go (l : list (string * JSON)) : string :=
         match l with
         | [] => ""
         | (k, v) :: r =>
             quoted k +:+ ":" +:+ print_JSON v +:+
             match r with [] => "" | _ => "," +:+ go r end
         end) members +:+ "}"
  end.

Definition encode (j : JSON) : list byte * option error :=
  (String.list_byte_of_string (print_JSON j), None).

(** An encoder that gives up on every value. *)
Definition encode_fails (j : JSON) : list byte * option error :=
  ([], Some "json: unsupported value").

Definition cfg : Config := mkConfig "localhost:61616" "admin" "admin".

Definition alert (name : string) : Alert :=
  mkAlert (Some ∅) "" "" (Some {[ "alertname" := name ]})
          "2024-01-01T00:00:00Z".

Definition Foo : Alert := alert "Foo".
Definition Bar : Alert := alert "Bar".
Definition Baz : Alert := alert "Baz".

Definition batch (l : list Alert) : Alerts :=
  mkAlerts l (Some ∅) (Some ∅) "" (Some ∅) "r" "firing".

(** A decoder that knows one body: the empty body is a truncated text,
    every other body stands for [batch l]. *)
Definition decode (l : list Alert) (body : list byte) (zero : Alerts)
    : Alerts * option error :=
  match body with
  | [] => (zero, Some "unexpected end of JSON input")
  | _ => (batch l, None)
  end.

Definition body : list byte := String.list_byte_of_string "{...}".

Definition request : Context := mkContext "kubernetes" (body, None).
Definition truncated : Context := mkContext "kubernetes" ([], None).

(** A broker that takes everything. *)
Definition up : Broker :=
  mkBroker (λ _, None) (λ _ _ _ _, None) (λ _, None).

(** An unreachable broker. *)
Definition down : Broker :=
  mkBroker (λ _, Some "dial tcp: connection refused")
           (λ _ _ _ _, None) (λ _, None).

(** A broker that refuses the frame number [k] (from 0) and takes the
    others. *)
Definition refuses_frame (k : nat) : Broker :=
  mkBroker (λ _, None)
           (λ tr _ _ _, if decide (length (sends tr) = k)
                        then Some "connection closed" else None)
           (λ _, None).

(** A broker that takes every frame and fails every disconnect. *)
Definition sticky : Broker :=
  mkBroker (λ _, None) (λ _ _ _ _, None) (λ _, Some "timeout").

(** A logger whose exit function returns. *)
Definition stub : Logger := mkLogger exit_returns.

(** A request whose body could not be read to its end. *)
Definition unreadable : Context :=
  mkContext "kubernetes" ([], Some "unexpected EOF").

(** *** A reader for the texts of the samples

    JSON texts whose strings hold no escape. *)

Definition is_space (c : Ascii.ascii) : bool :=
  bool_decide (code c = 32%N) || bool_decide (code c = 9%N) ||
  bool_decide (code c = 10%N) || bool_decide (code c = 13%N).

Definition is_digit (c : Ascii.ascii) : bool :=
  (48 <=? code c)%N && (code c <=? 57)%N.

Fixpoint skip_space (s : string) : string :=
  match s with
  | String c rest => if is_space c then skip_space rest else s
  | EmptyString => s
  end.

(** The text after the word [w], when the text starts with it. *)
Fixpoint after (w s : string) : option string :=
  match w with
  | EmptyString => Some s
  | String c w' =>
      match s with
      | String c' s' => if decide (c = c') then after w' s' else None
      | EmptyString => None
      end
  end.

(** Up to the closing quote of a string. *)
Fixpoint read_string (s : string) : option (string * string) :=
  match s with
  | EmptyString => None
  | String c rest =>
      if bool_decide (code c = 34%N) then Some (EmptyString, rest)
      else if bool_decide (code c = 92%N) || (code c <? 32)%N then None
      else r ← read_string rest; Some (String c r.1, r.2)
  end.

Fixpoint read_digits (s : string) : string * string :=
  match s with
  | String c rest =>
      if is_digit c
      then let r := read_digits rest in (String c r.1, r.2)
      else (EmptyString, s)
  | EmptyString => (EmptyString, s)
  end.

(** A number: sign, integer part, fraction, exponent. *)
Definition read_number (s : string) : option (string * string) :=
  let '(sign, s1) :=
    match after "-" s with
    | Some s1 => ("-", s1)
    | None => ("", s)
    end in
  let '(int, s2) := read_digits s1 in
  if bool_decide (int = "") then None
  else if bool_decide (String.length int ≠ 1) &&
          bool_decide (is_Some (after "0" int))
  then None
  else
    frac ← match after "." s2 with
           | Some s3 =>
               let '(ds, s4) := read_digits s3 in
               if bool_decide (ds = "") then None else Some ("." +:+ ds, s4)
           | None => Some ("", s2)
           end;
    expo ← match frac.2 with
           | String c s5 =>
               if bool_decide (code c = 101%N) || bool_decide (code c = 69%N)
               then
                 let '(esign, s6) :=
                   match s5 with
                   | String c' s6 =>
                       if bool_decide (code c' = 43%N) ||
                          bool_decide (code c' = 45%N)
                       then (String c' EmptyString, s6)
                       else ("", s5)
                   | EmptyString => ("", s5)
                   end in
                 let '(ds, s7) := read_digits s6 in
                 if bool_decide (ds = "") then None
                 else Some (String c EmptyString +:+ esign +:+ ds, s7)
               else Some ("", frac.2)
           | EmptyString => Some ("", frac.2)
           end;
    Some (sign +:+ int +:+ frac.1 +:+ expo.1, expo.2).

Fixpoint read_value (fuel : nat) (s : string) : option (JSON * string) :=
  match fuel with
  | O => None
  | S fuel =>
      let s := skip_space s in
      match s with
      | EmptyString => None
      | String c rest =>
          if bool_decide (code c = 34%N) then
            r ← read_string rest; Some (JString r.1, r.2)
          else if bool_decide (code c = 91%N) then
            let rest := skip_space rest in
            match after "]" rest with
            | Some rest => Some (JArray [], rest)
            | None =>
                (fix items (n : nat) (s : string)
                   : option (list JSON * string) :=
                   match n with
                   | O => None
                   | S n =>
                       v ← read_value fuel s;
                       let s := skip_space v.2 in
                       match after "," s with
                       | Some s => r ← items n s; Some (v.1 :: r.1, r.2)
                       | None => s ← after "]" s; Some ([v.1], s)
                       end
                   end) fuel rest
                ≫= λ r, Some (JArray r.1, r.2)
            end
          else if bool_decide (code c = 123%N) then
            let rest := skip_space rest in
            match after "}" rest with
            | Some rest => Some (JObject [], rest)
            | None =>
                (fix members (n : nat) (s : string)
                   : option (list (string * JSON) * string) :=
                   match n with
                   | O => None
                   | S n =>
                       s ← after dquote (skip_space s);
                       k ← read_string s;
                       s ← after ":" (skip_space k.2);
                       v ← read_value fuel s;
                       let s := skip_space v.2 in
                       match after "," s with
                       | Some s =>
                           r ← members n s; Some ((k.1, v.1) :: r.1, r.2)
                       | None => s ← after "}" s; Some ([(k.1, v.1)], s)
                       end
                   end) fuel rest
                ≫= λ r, Some (JObject r.1, r.2)
            end
          else
            match after "true" s, after "false" s, after "null" s with
            | Some rest, _, _ => Some (JBool true, rest)
            | _, Some rest, _ => Some (JBool false, rest)
            | _, _, Some rest => Some (JNull, rest)
            | _, _, _ => r ← read_number s; Some (JNumber r.1, r.2)
            end
      end
  end.

(** The value of a text: one value and nothing but space after it. *)
Definition parse (data : list byte) : option JSON :=
  let s := String.string_of_list_byte data in
  r ← read_value (S (String.length s)) s;
  if bool_decide (skip_space r.2 = "") then Some r.1 else None.

(** The text of a value. *)
Definition text (j : JSON) : list byte :=
  String.list_byte_of_string (print_JSON j).

(** The number literals of the samples are written as a float64 is. *)
Definition float64 (literal : string) : option string := Some literal.

(** A request with the text of [j] as its body. *)
Definition post (j : JSON) : Context :=
  mkContext "kubernetes" (text j, None).

(** The payload of a group with the alerts [l]. *)
Definition payload (l : list Alert) : JSON :=
  JObject
    [ ("alerts", JArray (map marshal_Alert l)); ("status", JString "firing");
      ("receiver", JString "r"); ("externalURL", JString "");
      ("commonAnnotations", JObject []); ("commonLabels", JObject []);
      ("groupLabels", JObject []) ].



(** One request for [alerts] on topic [kubernetes], from a fresh process. *)
Definition run (lg : Logger) (b : Broker) (alerts : list Alert)
    : Outcome unit * World :=
  alertPOSTHandler cfg (decode alerts) encode b lg request World_zero.

(** One publish of [a] to topic [kubernetes], from a fresh process. *)
Definition publish (lg : Logger) (b : Broker) (a : Alert)
    : Outcome (option error) * World :=
  sendAlertToStomp cfg encode b lg "kubernetes" a World_zero.

End Samples.

(** ** One publish call, path by path *)

Ltac step :=
  unfold bind, ret, os_Exit, panic, Infof, Fatalf, emit, record,
    stomp_Dial, Conn_Send, Conn_Disconnect, ObserveDuration,
    httpCounter_Inc, amqRequests_Inc, WriteHeader; simpl.

Section Publish.

Variable cfg : Config.
Variable json_encode : JSON → list byte * option error.
Variable broker : Broker.

Lemma publish_done lg topic a w msg :
  json_Marshal json_encode a = (msg, None) →
  dial_answer broker (wire w) = None →
  send_answer cfg broker (wire w) topic msg = None →
  ∃ w', sendAlertToStomp cfg json_encode broker lg topic a w
          = (Returned None, w') ∧
        wire w' = wire w ++ [dialled cfg None; framed topic msg None;
                             EvDisconnect
                               (disconnect_answer cfg broker (wire w)
                                  topic msg)] ∧
        untouched w w'.
Proof.
  unfold dial_answer, send_answer, disconnect_answer.
  intros Hm Hd Hs. unfold sendAlertToStomp. rewrite Hm. step.
  rewrite Hd. simpl. fold (dialled cfg None). rewrite Hs. simpl.
  eexists. split; [reflexivity|]. simpl.
  rewrite <- !app_assoc. simpl. by repeat split.
Qed.

Lemma publish_marshal_fails_exit lg topic a w msg e :
  ExitFunc lg = exit_process →
  json_Marshal json_encode a = (msg, Some e) →
  ∃ w', sendAlertToStomp cfg json_encode broker lg topic a w
          = (Exited 1, w') ∧
        wire w' = wire w ∧ untouched w w'.
Proof.
  intros Hx Hm. unfold sendAlertToStomp. rewrite Hm. step. rewrite Hx.
  eexists. split; [reflexivity|]. by repeat split.
Qed.

Lemma publish_dial_fails_exit lg topic a w msg e :
  ExitFunc lg = exit_process →
  json_Marshal json_encode a = (msg, None) →
  dial_answer broker (wire w) = Some e →
  ∃ w', sendAlertToStomp cfg json_encode broker lg topic a w
          = (Exited 1, w') ∧
        wire w' = wire w ++ [dialled cfg (Some e)] ∧ untouched w w'.
Proof.
  unfold dial_answer. intros Hx Hm Hd.
  unfold sendAlertToStomp. rewrite Hm. step.
  rewrite Hd. simpl. rewrite Hx.
  eexists. split; [reflexivity|]. by repeat split.
Qed.

Lemma publish_dial_fails_stub lg topic a w msg e :
  ExitFunc lg = exit_returns →
  json_Marshal json_encode a = (msg, None) →
  dial_answer broker (wire w) = Some e →
  ∃ w', sendAlertToStomp cfg json_encode broker lg topic a w
          = (Panicked nil_dereference, w') ∧
        wire w' = wire w ++ [dialled cfg (Some e)] ∧ untouched w w'.
Proof.
  unfold dial_answer. intros Hx Hm Hd.
  unfold sendAlertToStomp. rewrite Hm. step.
  rewrite Hd. simpl. rewrite Hx.
  eexists. split; [reflexivity|]. by repeat split.
Qed.

Lemma publish_send_fails_exit lg topic a w msg e :
  ExitFunc lg = exit_process →
  json_Marshal json_encode a = (msg, None) →
  dial_answer broker (wire w) = None →
  send_answer cfg broker (wire w) topic msg = Some e →
  ∃ w', sendAlertToStomp cfg json_encode broker lg topic a w
          = (Exited 1, w') ∧
        wire w' = wire w ++ [dialled cfg None; framed topic msg (Some e)] ∧
        untouched w w'.
Proof.
  unfold dial_answer, send_answer. intros Hx Hm Hd Hs.
  unfold sendAlertToStomp. rewrite Hm. step.
  rewrite Hd. simpl. fold (dialled cfg None). rewrite Hs. simpl. rewrite Hx.
  eexists. split; [reflexivity|]. simpl.
  rewrite <- !app_assoc. by repeat split.
Qed.

Lemma publish_send_fails_stub lg topic a w msg e :
  ExitFunc lg = exit_returns →
  json_Marshal json_encode a = (msg, None) →
  dial_answer broker (wire w) = None →
  send_answer cfg broker (wire w) topic msg = Some e →
  ∃ w', sendAlertToStomp cfg json_encode broker lg topic a w
          = (Returned (Some e), w') ∧
        wire w' = wire w ++ [dialled cfg None; framed topic msg (Some e)] ∧
        untouched w w'.
Proof.
  unfold dial_answer, send_answer. intros Hx Hm Hd Hs.
  unfold sendAlertToStomp. rewrite Hm. step.
  rewrite Hd. simpl. fold (dialled cfg None). rewrite Hs. simpl. rewrite Hx.
  eexists. split; [reflexivity|]. simpl.
  rewrite <- !app_assoc. by repeat split.
Qed.

(** Under a logger whose exit function is [os.Exit], no call returns an
    error: every error path ends the process first. *)
Lemma publish_returns_no_error lg topic a w e :
  ExitFunc lg = exit_process →
  (sendAlertToStomp cfg json_encode broker lg topic a w).1
  ≠ Returned (Some e).
Proof.
  intros Hx.
  destruct (json_Marshal json_encode a) as [msg [e'|]] eqn:Hm.
  - destruct (publish_marshal_fails_exit lg topic a w msg e' Hx Hm)
      as (w' & -> & _). done.
  - destruct (dial_answer broker (wire w)) as [e'|] eqn:Hd.
    + destruct (publish_dial_fails_exit lg topic a w msg e' Hx Hm Hd)
        as (w' & -> & _). done.
    + destruct (send_answer cfg broker (wire w) topic msg) as [e'|] eqn:Hs.
      * destruct (publish_send_fails_exit lg topic a w msg e' Hx Hm Hd Hs)
          as (w' & -> & _). done.
      * destruct (publish_done lg topic a w msg Hm Hd Hs)
          as (w' & -> & _). done.
Qed.

End Publish.

(** ** The counters *)

Lemma count_Inc_same label c : count label (Inc label c) = S (count label c).
Proof. unfold count, Inc. by rewrite lookup_insert_eq. Qed.

Lemma count_Inc_other label label' c :
  label ≠ label' → count label' (Inc label c) = count label' c.
Proof. intros Hne. unfold count, Inc. by rewrite lookup_insert_ne. Qed.

Lemma count_iter_same label n c :
  count label (Nat.iter n (Inc label) c) = count label c + n.
Proof.
  induction n as [|n IH]; simpl; [lia|]. rewrite count_Inc_same, IH. lia.
Qed.

Lemma count_iter_other label label' n c :
  label ≠ label' → count label' (Nat.iter n (Inc label) c) = count label' c.
Proof.
  intros Hne. induction n as [|n IH]; simpl; [done|].
  by rewrite count_Inc_other.
Qed.

Lemma iter_Inc_shift label n c :
  Nat.iter n (Inc label) (Inc label c) = Nat.iter (S n) (Inc label) c.
Proof. induction n as [|n IH]; simpl; [done|]. by rewrite IH. Qed.

(** ** The loop of the handler under the package logger *)

Section Forward.

Variable cfg : Config.
Variable json_encode : JSON → list byte * option error.
Variable broker : Broker.

Local Abbreviation message a := (json_Marshal json_encode a).1.
Local Abbreviation loop topic alerts :=
  (for_range alerts (forward_one cfg json_encode broker log topic)).

Lemma forward_one_done lg topic a w :
  (json_Marshal json_encode a).2 = None →
  dial_answer broker (wire w) = None →
  send_answer cfg broker (wire w) topic (message a) = None →
  ∃ w', forward_one cfg json_encode broker lg topic a w
          = (Returned tt, w') ∧
        wire w' = wire w ++
          [dialled cfg None; framed topic (message a) None;
           EvDisconnect
             (disconnect_answer cfg broker (wire w) topic (message a))] ∧
        amqRequests w' = Inc "ok" (amqRequests w) ∧
        httpDuration w' = httpDuration w ∧
        httpCounter w' = httpCounter w ∧ status w' = status w.
Proof.
  intros Hm Hd Hs.
  destruct (json_Marshal json_encode a) as [msg err] eqn:E.
  simpl in *. subst err.
  destruct (publish_done cfg json_encode broker lg topic a w msg E Hd Hs)
    as (w1 & Hrun & Hw & Hd1 & Hc1 & Ha1 & Hs1).
  unfold forward_one, bind. rewrite Hrun. step.
  eexists. split; [reflexivity|]. simpl. rewrite Ha1. by repeat split.
Qed.

Lemma forward_one_stops topic a w :
  ¬ ((json_Marshal json_encode a).2 = None ∧
     dial_answer broker (wire w) = None ∧
     send_answer cfg broker (wire w) topic (message a) = None) →
  ∃ w' new, forward_one cfg json_encode broker log topic a w
              = (Exited 1, w') ∧
            wire w' = wire w ++ new ∧
            stopped cfg topic (message a) new ∧ untouched w w'.
Proof.
  intros Hnot.
  destruct (json_Marshal json_encode a) as [msg [e|]] eqn:E; simpl in *.
  - destruct (publish_marshal_fails_exit cfg json_encode broker log
                topic a w msg e eq_refl E) as (w1 & Hrun & Hw & Hu).
    unfold forward_one, bind. rewrite Hrun.
    exists w1, []. rewrite app_nil_r. repeat split; try apply Hu; try done.
    constructor.
  - destruct (dial_answer broker (wire w)) as [e|] eqn:Hd.
    + destruct (publish_dial_fails_exit cfg json_encode broker log
                  topic a w msg e eq_refl E Hd) as (w1 & Hrun & Hw & Hu).
      unfold forward_one, bind. rewrite Hrun.
      exists w1, [dialled cfg (Some e)].
      repeat split; try apply Hu; try done. constructor.
    + destruct (send_answer cfg broker (wire w) topic msg) as [e|] eqn:Hs.
      * destruct (publish_send_fails_exit cfg json_encode broker log
                    topic a w msg e eq_refl E Hd Hs)
          as (w1 & Hrun & Hw & Hu).
        unfold forward_one, bind. rewrite Hrun.
        exists w1, [dialled cfg None; framed topic msg (Some e)].
        repeat split; try apply Hu; try done. constructor.
      * exfalso. by apply Hnot.
Qed.

Lemma loop_forwarded topic alerts : ∀ w,
  ∃ o w' new,
    loop topic alerts w = (o, w') ∧
    wire w' = wire w ++ new ∧
    forwarded cfg json_encode topic alerts new o ∧
    amqRequests w'
      = Nat.iter (length (disconnects new)) (Inc "ok") (amqRequests w) ∧
    httpDuration w' = httpDuration w ∧
    httpCounter w' = httpCounter w ∧ status w' = status w.
Proof.
  induction alerts as [|a rest IH]; intros w.
  - exists (Returned tt), w, []. rewrite app_nil_r.
    repeat split; try done. constructor.
  - destruct (decide ((json_Marshal json_encode a).2 = None ∧
                      dial_answer broker (wire w) = None ∧
                      send_answer cfg broker (wire w) topic (message a)
                        = None)) as [(Hm & Hd & Hs)|Hnot].
    + destruct (forward_one_done log topic a w Hm Hd Hs)
        as (w1 & Hrun & Hw1 & Ha1 & Hd1 & Hc1 & Hs1).
      destruct (IH w1) as (o & w' & new & Hloop & Hw & Hf & Ha & Hd' & Hc' & Hs').
      exists o, w'. eexists. simpl. unfold bind at 1. rewrite Hrun.
      split; [exact Hloop|]. split.
      { rewrite Hw, Hw1, <- app_assoc. simpl. reflexivity. }
      split; [by constructor|]. simpl.
      rewrite Ha, Ha1, iter_Inc_shift. simpl.
      repeat split; congruence.
    + destruct (forward_one_stops topic a w Hnot)
        as (w1 & new & Hrun & Hw1 & Hst & Hd1 & Hc1 & Ha1 & Hs1).
      exists (Exited 1), w1, new. simpl. unfold bind at 1. rewrite Hrun.
      repeat split; try done.
      * by constructor.
      * destruct Hst; simpl; done.
Qed.

(** *** What the shape of the traffic says *)

Lemma stopped_round_trips topic msg new :
  stopped cfg topic msg new → round_trips new = true.
Proof. by destruct 1. Qed.

Lemma forwarded_round_trips topic alerts new o :
  forwarded cfg json_encode topic alerts new o → round_trips new = true.
Proof.
  induction 1 as [|a rest x new o _ IH|a rest new Hst]; simpl; try done.
  by eapply stopped_round_trips.
Qed.

Lemma forwarded_sends topic alerts new o :
  forwarded cfg json_encode topic alerts new o →
  ∃ n, sends new
       = map (λ a, (topic, "application/json", message a)) (take n alerts).
Proof.
  induction 1 as [|a rest x new o _ [n IH]|a rest new Hst].
  - by exists 0.
  - exists (S n). simpl. by rewrite <- IH.
  - destruct Hst; [by exists 0|by exists 0|by exists 1].
Qed.

Lemma forwarded_returned topic alerts new o :
  forwarded cfg json_encode topic alerts new o → o = Returned tt →
  length (disconnects new) = length alerts ∧
  length (dials new) = length alerts ∧
  sends new = map (λ a, (topic, "application/json", message a)) alerts.
Proof.
  induction 1 as [|a rest x new o _ IH|a rest new Hst]; intros Ho;
    [done| |done].
  destruct (IH Ho) as (Hx & Hd & Hs). simpl.
  rewrite Hs. repeat split; f_equal; done.
Qed.

Lemma forwarded_outcome topic alerts new o :
  forwarded cfg json_encode topic alerts new o → o = Returned tt ∨ o = Exited 1.
Proof. induction 1; auto. Qed.

Lemma forwarded_exited topic alerts new o :
  forwarded cfg json_encode topic alerts new o → o = Exited 1 →
  length (disconnects new) < length alerts ∧
  length (dials new) ≤ S (length (disconnects new)).
Proof.
  induction 1 as [|a rest x new o _ IH|a rest new Hst]; intros Ho;
    [done| |].
  - destruct (IH Ho). simpl. lia.
  - destruct Hst; simpl; lia.
Qed.

End Forward.

(** ** The handler *)

Section Handler.

Variable cfg : Config.
Variable json_Unmarshal : list byte → Alerts → Alerts * option error.
Variable json_encode : JSON → list byte * option error.
Variable broker : Broker.

Local Abbreviation handler lg :=
  (alertPOSTHandler cfg json_Unmarshal json_encode broker lg).

Lemma unmarshalAlerts_err body :
  (unmarshalAlerts json_Unmarshal body).2
  = (json_Unmarshal body Alerts_zero).2.
Proof.
  unfold unmarshalAlerts.
  by destruct (json_Unmarshal body Alerts_zero) as [alerts [e|]].
Qed.

(** A body that does not decode: the 500 branch, whatever the logger. *)
Lemma handler_decode_fails lg ctx w body e :
  Request_Body ctx = (body, None) →
  (unmarshalAlerts json_Unmarshal body).2 = Some e →
  ∃ w', handler lg ctx w
          = (match ExitFunc lg with
             | exit_process => Exited 1
             | exit_returns => Returned tt
             end, w') ∧
        wire w' = wire w ∧
        status w' = Some StatusInternalServerError ∧
        httpCounter w' = Inc "500" (httpCounter w) ∧
        amqRequests w' = amqRequests w ∧
        httpDuration w' = S (httpDuration w).
Proof.
  intros Hb He. unfold alertPOSTHandler. rewrite Hb.
  destruct (unmarshalAlerts json_Unmarshal body) as [alerts err].
  simpl in He. subst err. step.
  destruct (ExitFunc lg); eexists; (split; [reflexivity|]); by repeat split.
Qed.

(** A body that decodes, under the package logger. *)
Lemma handler_forwarded ctx w body alerts :
  Request_Body ctx = (body, None) →
  unmarshalAlerts json_Unmarshal body = (alerts, None) →
  ∃ o w' new,
    handler log ctx w = (o, w') ∧
    wire w' = wire w ++ new ∧
    forwarded cfg json_encode (Params_topic ctx) (Alerts_Alerts alerts) new o ∧
    amqRequests w'
      = Nat.iter (length (disconnects new)) (Inc "ok") (amqRequests w) ∧
    (o = Returned tt →
       status w' = Some StatusOK ∧
       httpCounter w' = Inc "200" (httpCounter w) ∧
       httpDuration w' = S (httpDuration w)) ∧
    (o = Exited 1 →
       status w' = status w ∧ httpCounter w' = httpCounter w ∧
       httpDuration w' = httpDuration w).
Proof.
  intros Hb Hu. unfold alertPOSTHandler. rewrite Hb, Hu.
  destruct (loop_forwarded cfg json_encode broker (Params_topic ctx)
              (Alerts_Alerts alerts) w)
    as (o & w1 & new & Hloop & Hw & Hf & Ha & Hd & Hc & Hs).
  destruct (forwarded_outcome _ _ _ _ _ _ Hf) as [-> | ->].
  - unfold bind at 1. rewrite Hloop. step.
    eexists _, _, new. split; [reflexivity|]. simpl.
    rewrite Hd, Hc. by repeat split.
  - unfold bind at 1. rewrite Hloop.
    exists (Exited 1), w1, new. by repeat split.
Qed.

End Handler.

(** ** Claims *)

(** C6. A body that does not decode (malformed text, or a known field of
    the wrong type) ends the call in the decode branch: the handler records
    and writes a 500, the fatal log entry ends the process with status 1,
    and no publish is attempted: the traffic with the broker is what it was
    before the call, so no connection is opened and no frame is sent, and
    the publish counters are unchanged. *)
Theorem decode_failure_publishes_nothing
    cfg json_Unmarshal json_encode broker ctx w body e :
  Request_Body ctx = (body, None) →
  (unmarshalAlerts json_Unmarshal body).2 = Some e →
  ∃ w', alertPOSTHandler cfg json_Unmarshal json_encode broker log ctx w
          = (Exited 1, w') ∧
        status w' = Some 500%Z ∧
        count "500" (httpCounter w') = S (count "500" (httpCounter w)) ∧
        wire w' = wire w ∧
        dials (wire w') = dials (wire w) ∧
        sends (wire w') = sends (wire w) ∧
        amqRequests w' = amqRequests w.
Proof.
  intros Hb He.
  destruct (handler_decode_fails cfg json_Unmarshal json_encode broker
              log ctx w body e Hb He) as (w' & Hrun & Hw & Hs & Hc & Ha & _).
  exists w'. simpl in Hrun. rewrite Hw, Hc, count_Inc_same.
  by repeat split.
Qed.

Lemma decode_failure_publishes_nothing_witness :
  ∃ w', alertPOSTHandler Samples.cfg (Samples.decode [Samples.Foo])
          Samples.encode Samples.up log Samples.truncated World_zero
          = (Exited 1, w') ∧
        status w' = Some 500%Z ∧
        count "500" (httpCounter w')
          = S (count "500" (httpCounter World_zero)) ∧
        wire w' = wire World_zero ∧
        dials (wire w') = dials (wire World_zero) ∧
        sends (wire w') = sends (wire World_zero) ∧
        amqRequests w' = amqRequests World_zero.
Proof.
  apply (decode_failure_publishes_nothing Samples.cfg
           (Samples.decode [Samples.Foo]) Samples.encode Samples.up
           Samples.truncated World_zero [] "unexpected end of JSON input");
    reflexivity.
Defined.

(** A body that decodes to a batch with no alerts: the handler returns
    after writing 200, having attempted no publish at all (the traffic with
    the broker and the publish counters are what they were). *)
Lemma empty_batch_is_success
    cfg json_Unmarshal json_encode broker ctx w body alerts :
  Request_Body ctx = (body, None) →
  unmarshalAlerts json_Unmarshal body = (alerts, None) →
  Alerts_Alerts alerts = [] →
  ∃ w', alertPOSTHandler cfg json_Unmarshal json_encode broker log ctx w
          = (Returned tt, w') ∧
        status w' = Some 200%Z ∧
        count "200" (httpCounter w') = S (count "200" (httpCounter w)) ∧
        wire w' = wire w ∧
        amqRequests w' = amqRequests w.
Proof.
  intros Hb Hu Hnil. unfold alertPOSTHandler. rewrite Hb, Hu, Hnil.
  step. eexists. split; [reflexivity|]. simpl.
  change (Itoa StatusOK) with "200". rewrite count_Inc_same.
  by repeat split.
Qed.

Lemma empty_batch_is_success_witness :
  ∃ w', alertPOSTHandler Samples.cfg (Samples.decode []) Samples.encode
          Samples.down log Samples.request World_zero
          = (Returned tt, w') ∧
        status w' = Some 200%Z ∧
        count "200" (httpCounter w')
          = S (count "200" (httpCounter World_zero)) ∧
        wire w' = wire World_zero ∧
        amqRequests w' = amqRequests World_zero.
Proof.
  apply (empty_batch_is_success Samples.cfg (Samples.decode [])
           Samples.encode Samples.down Samples.request World_zero
           Samples.body (Samples.batch [])); reflexivity.
Defined.

(** The value that [json.Marshal] builds for an alert (every alert,
    so every alert that came out of the decoder) carries under [labels]
    exactly the key/value pairs of the alert's [Labels]: [null] for a nil
    map, and otherwise an object without repeated keys in which a key is
    paired with a value if and only if the value is the string that the map
    holds under that key.  The order of the members is the one of the
    sorted keys, whatever the order of the text that was decoded. *)
Lemma labels_survive_marshal (a : Alert) :
  match Labels a with
  | None => member "labels" (marshal_Alert a) = Some JNull
  | Some m =>
      ∃ members,
        member "labels" (marshal_Alert a) = Some (JObject members) ∧
        NoDup members.*1 ∧
        ∀ k x, (k, x) ∈ members ↔ ∃ v, m !! k = Some v ∧ x = JString v
  end.
Proof.
  destruct a as [ann ends gen [m|] starts]; simpl; [|done].
  eexists. split; [reflexivity|]. split.
  - rewrite <- list_fmap_compose.
    change (fst ∘ _) with (fst : string * string → string).
    unfold sorted_entries. rewrite merge_sort_Permutation.
    apply NoDup_fst_map_to_list.
  - intros k x. rewrite list_elem_of_fmap. unfold sorted_entries. split.
    + intros ([k' v] & [= -> ->] & Hin).
      rewrite merge_sort_Permutation in Hin.
      apply elem_of_map_to_list in Hin. by exists v.
    + intros (v & Hv & ->). exists (k, v). split; [done|].
      rewrite merge_sort_Permutation. by apply elem_of_map_to_list.
Qed.

(** The exit path after an accepted frame: the connection is closed by one
    disconnect after the frame, and the call returns no error whatever the
    disconnect answers. *)
Theorem disconnect_follows_accepted_frame
    cfg json_encode broker lg topic a w msg :
  json_Marshal json_encode a = (msg, None) →
  dial_answer broker (wire w) = None →
  send_answer cfg broker (wire w) topic msg = None →
  ∃ w', sendAlertToStomp cfg json_encode broker lg topic a w
          = (Returned None, w') ∧
        wire w' = wire w ++
          [dialled cfg None; framed topic msg None;
           EvDisconnect (disconnect_answer cfg broker (wire w) topic msg)].
Proof.
  intros Hm Hd Hs.
  destruct (publish_done cfg json_encode broker lg topic a w msg Hm Hd Hs)
    as (w' & Hrun & Hw & _).
  by exists w'.
Qed.

Lemma disconnect_follows_accepted_frame_witness :
  ∃ w', sendAlertToStomp Samples.cfg Samples.encode Samples.sticky log
          "kubernetes" Samples.Foo World_zero
          = (Returned None, w') ∧
        wire w' = wire World_zero ++
          [dialled Samples.cfg None;
           framed "kubernetes"
             (json_Marshal Samples.encode Samples.Foo).1 None;
           EvDisconnect (Some "timeout")].
Proof.
  apply (disconnect_follows_accepted_frame Samples.cfg Samples.encode
           Samples.sticky log "kubernetes" Samples.Foo World_zero
           (json_Marshal Samples.encode Samples.Foo).1); reflexivity.
Defined.

(** C5, at a broker that accepts the connection and does not take the
    frame: the call ends on the send-failure path (the process exits; under
    a logger whose exit function returns, the error is returned) and no
    disconnect is attempted on the open connection, unlike on the path
    after an accepted frame. *)
Theorem refused_frame_leaves_connection_open :
  wire (Samples.publish log (Samples.refuses_frame 0) Samples.Foo).2
  = [dialled Samples.cfg None;
     framed "kubernetes" (json_Marshal Samples.encode Samples.Foo).1
       (Some "connection closed")] ∧
  (Samples.publish log (Samples.refuses_frame 0) Samples.Foo).1
  = Exited 1 ∧
  disconnects
    (wire (Samples.publish log (Samples.refuses_frame 0) Samples.Foo).2)
  = [] ∧
  (Samples.publish Samples.stub (Samples.refuses_frame 0) Samples.Foo).1
  = Returned (Some "connection closed") ∧
  disconnects
    (wire (Samples.publish Samples.stub (Samples.refuses_frame 0)
             Samples.Foo).2)
  = [] ∧
  disconnects (wire (Samples.publish log Samples.up Samples.Foo).2)
  = [None].
Proof. repeat split; vm_compute; reflexivity. Qed.

(** C10, as the code has it: when the connection attempt returns an error,
    the connect-error branch does not return from the function; its fatal
    log entry ends the process with status 1 under the package logger, so
    the send step is not run and the traffic ends with the failed attempt.
    Only under a logger whose exit function returns does control fall
    through to the send step, on the nil connection, where the call
    panics. *)
Theorem failed_dial_exits_before_send
    cfg json_encode broker topic a w msg e :
  json_Marshal json_encode a = (msg, None) →
  dial_answer broker (wire w) = Some e →
  (∃ w', sendAlertToStomp cfg json_encode broker log topic a w
           = (Exited 1, w') ∧
         wire w' = wire w ++ [dialled cfg (Some e)]) ∧
  (∀ lg, ExitFunc lg = exit_returns →
     ∃ w', sendAlertToStomp cfg json_encode broker lg topic a w
             = (Panicked nil_dereference, w') ∧
           wire w' = wire w ++ [dialled cfg (Some e)]).
Proof.
  intros Hm Hd. split.
  - destruct (publish_dial_fails_exit cfg json_encode broker log topic a w
                msg e eq_refl Hm Hd) as (w' & Hrun & Hw & _).
    by exists w'.
  - intros lg Hx.
    destruct (publish_dial_fails_stub cfg json_encode broker lg topic a w
                msg e Hx Hm Hd) as (w' & Hrun & Hw & _).
    by exists w'.
Qed.

Lemma failed_dial_exits_before_send_witness :
  (∃ w', sendAlertToStomp Samples.cfg Samples.encode Samples.down log
           "kubernetes" Samples.Foo World_zero
           = (Exited 1, w') ∧
         wire w' = wire World_zero ++
           [dialled Samples.cfg (Some "dial tcp: connection refused")]) ∧
  (∀ lg, ExitFunc lg = exit_returns →
     ∃ w', sendAlertToStomp Samples.cfg Samples.encode Samples.down lg
             "kubernetes" Samples.Foo World_zero
             = (Panicked nil_dereference, w') ∧
           wire w' = wire World_zero ++
             [dialled Samples.cfg (Some "dial tcp: connection refused")]).
Proof.
  apply (failed_dial_exits_before_send Samples.cfg Samples.encode
           Samples.down "kubernetes" Samples.Foo World_zero
           (json_Marshal Samples.encode Samples.Foo).1
           "dial tcp: connection refused"); reflexivity.
Defined.

(** C10, where it fails: the broker is unreachable, the connection attempt
    returns an error, and the call ends with the exit of the process: no
    send step runs, neither on a connection nor on nil. *)
Lemma refused_dial_reaches_no_send :
  dials (wire (Samples.publish log Samples.down Samples.Foo).2)
  = [Some "dial tcp: connection refused"] ∧
  (Samples.publish log Samples.down Samples.Foo).1 = Exited 1 ∧
  (Samples.publish log Samples.down Samples.Foo).1
  ≠ Panicked nil_dereference ∧
  sends (wire (Samples.publish log Samples.down Samples.Foo).2) = [].
Proof. repeat split; vm_compute; try reflexivity. discriminate. Qed.

(** *** Publish failures in the handler *)

(** Once the body has decoded, the handler under the package logger never
    counts a [not_ok] and never writes a 500: it returns with a 200, one
    [ok] per alert and one connection per alert, or the process exits in
    the middle of the batch with response and HTTP counter untouched. *)
Lemma handler_after_decode
    cfg json_Unmarshal json_encode broker ctx w body alerts :
  Request_Body ctx = (body, None) →
  unmarshalAlerts json_Unmarshal body = (alerts, None) →
  ∃ o w' new,
    alertPOSTHandler cfg json_Unmarshal json_encode broker log ctx w
      = (o, w') ∧
    wire w' = wire w ++ new ∧
    count "not_ok" (amqRequests w') = count "not_ok" (amqRequests w) ∧
    ((o = Returned tt ∧ status w' = Some 200%Z ∧
      length (dials new) = length (Alerts_Alerts alerts) ∧
      count "ok" (amqRequests w')
        = count "ok" (amqRequests w) + length (Alerts_Alerts alerts)) ∨
     (o = Exited 1 ∧ status w' = status w ∧
      httpCounter w' = httpCounter w ∧
      length (dials new) ≤ length (Alerts_Alerts alerts) ∧
      count "ok" (amqRequests w')
        < count "ok" (amqRequests w) + length (Alerts_Alerts alerts))).
Proof.
  intros Hb Hu.
  destruct (handler_forwarded cfg json_Unmarshal json_encode broker
              ctx w body alerts Hb Hu)
    as (o & w' & new & Hrun & Hw & Hf & Ha & Hret & Hexit).
  exists o, w', new. rewrite Ha, count_iter_same.
  rewrite count_iter_other by done.
  repeat split; try done.
  destruct (forwarded_outcome _ _ _ _ _ _ Hf) as [-> | ->].
  - left. destruct (Hret eq_refl) as (Hs & _).
    destruct (forwarded_returned _ _ _ _ _ _ Hf eq_refl) as (Hx & Hd & _).
    rewrite Hx. by repeat split.
  - right. destruct (Hexit eq_refl) as (Hs & Hc & _).
    destruct (forwarded_exited _ _ _ _ _ _ Hf eq_refl) as (Hx & Hd).
    repeat split; try done; lia.
Qed.

(** C1, at a batch of two alerts whose first frame the broker does not
    take: the process exits with status 1 at the first alert, one
    connection was made and one frame was handed over, so the second alert
    is never attempted; no status was written and no 500 was counted.  The
    lines after the fatal entry do not change this: under a logger whose
    exit function returns, both alerts are attempted and the handler
    answers 200. *)
Theorem refused_frame_ends_the_batch :
  (Samples.run log (Samples.refuses_frame 0) [Samples.Foo; Samples.Bar]).1
  = Exited 1 ∧
  length (dials (wire
    (Samples.run log (Samples.refuses_frame 0)
       [Samples.Foo; Samples.Bar]).2)) = 1 ∧
  sends (wire
    (Samples.run log (Samples.refuses_frame 0)
       [Samples.Foo; Samples.Bar]).2)
  = [("kubernetes", "application/json",
      (json_Marshal Samples.encode Samples.Foo).1)] ∧
  status
    (Samples.run log (Samples.refuses_frame 0)
       [Samples.Foo; Samples.Bar]).2 = None ∧
  count "500" (httpCounter
    (Samples.run log (Samples.refuses_frame 0)
       [Samples.Foo; Samples.Bar]).2) = 0 ∧
  (Samples.run Samples.stub (Samples.refuses_frame 0)
     [Samples.Foo; Samples.Bar]).1 = Returned tt ∧
  length (dials (wire
    (Samples.run Samples.stub (Samples.refuses_frame 0)
       [Samples.Foo; Samples.Bar]).2)) = 2 ∧
  status
    (Samples.run Samples.stub (Samples.refuses_frame 0)
       [Samples.Foo; Samples.Bar]).2 = Some 200%Z.
Proof. repeat split; vm_compute; reflexivity. Qed.

(** C2, at a batch of one alert whose frame the broker does not take:
    decoding succeeded and the publish failed, yet no 500 is written or
    counted; the process exits with status 1 and the response untouched,
    and under a logger whose exit function returns the handler writes and
    counts a 200. *)
Theorem refused_frame_writes_no_500 :
  (Samples.run log (Samples.refuses_frame 0) [Samples.Foo]).1 = Exited 1 ∧
  status (Samples.run log (Samples.refuses_frame 0) [Samples.Foo]).2
  = None ∧
  count "500" (httpCounter
    (Samples.run log (Samples.refuses_frame 0) [Samples.Foo]).2) = 0 ∧
  (Samples.run Samples.stub (Samples.refuses_frame 0) [Samples.Foo]).1
  = Returned tt ∧
  status (Samples.run Samples.stub (Samples.refuses_frame 0) [Samples.Foo]).2
  = Some 200%Z ∧
  count "200" (httpCounter
    (Samples.run Samples.stub (Samples.refuses_frame 0) [Samples.Foo]).2)
  = 1 ∧
  count "500" (httpCounter
    (Samples.run Samples.stub (Samples.refuses_frame 0) [Samples.Foo]).2)
  = 0.
Proof. repeat split; vm_compute; reflexivity. Qed.

(** C3, at a batch of three alerts of which the broker takes the first two
    frames and not the third: exactly one publish fails and the other two
    succeed, all three are attempted, [ok] ends at 2, and [not_ok] stays
    at 0, not 1, when the process exits.  When it is the second frame that
    the broker does not take, only two publishes are attempted and [ok]
    ends at 1.  Under a logger whose exit function returns, all three are
    attempted, [not_ok] ends at 1 and [ok] at 3, not 2: the failed alert is
    counted under both labels. *)
Theorem one_refused_frame_among_three :
  (Samples.run log (Samples.refuses_frame 2)
     [Samples.Foo; Samples.Bar; Samples.Baz]).1 = Exited 1 ∧
  length (dials (wire
    (Samples.run log (Samples.refuses_frame 2)
       [Samples.Foo; Samples.Bar; Samples.Baz]).2)) = 3 ∧
  count "ok" (amqRequests
    (Samples.run log (Samples.refuses_frame 2)
       [Samples.Foo; Samples.Bar; Samples.Baz]).2) = 2 ∧
  count "not_ok" (amqRequests
    (Samples.run log (Samples.refuses_frame 2)
       [Samples.Foo; Samples.Bar; Samples.Baz]).2) = 0 ∧
  length (dials (wire
    (Samples.run log (Samples.refuses_frame 1)
       [Samples.Foo; Samples.Bar; Samples.Baz]).2)) = 2 ∧
  count "ok" (amqRequests
    (Samples.run log (Samples.refuses_frame 1)
       [Samples.Foo; Samples.Bar; Samples.Baz]).2) = 1 ∧
  count "not_ok" (amqRequests
    (Samples.run log (Samples.refuses_frame 1)
       [Samples.Foo; Samples.Bar; Samples.Baz]).2) = 0 ∧
  length (dials (wire
    (Samples.run Samples.stub (Samples.refuses_frame 1)
       [Samples.Foo; Samples.Bar; Samples.Baz]).2)) = 3 ∧
  count "not_ok" (amqRequests
    (Samples.run Samples.stub (Samples.refuses_frame 1)
       [Samples.Foo; Samples.Bar; Samples.Baz]).2) = 1 ∧
  count "ok" (amqRequests
    (Samples.run Samples.stub (Samples.refuses_frame 1)
       [Samples.Foo; Samples.Bar; Samples.Baz]).2) = 3.
Proof. repeat split; vm_compute; reflexivity. Qed.

(** C4, at an unreachable broker: the publish call returns no error at
    all, the process exits with status 1 inside it; in the handler the
    [not_ok] counter stays at 0 and no status is written.  Under a logger
    whose exit function returns the call panics at the send step instead
    of returning the connection error. *)
Theorem unreachable_broker_returns_no_error :
  dials (wire (Samples.publish log Samples.down Samples.Foo).2)
  = [Some "dial tcp: connection refused"] ∧
  (Samples.publish log Samples.down Samples.Foo).1 = Exited 1 ∧
  (Samples.run log Samples.down [Samples.Foo]).1 = Exited 1 ∧
  count "not_ok" (amqRequests
    (Samples.run log Samples.down [Samples.Foo]).2) = 0 ∧
  status (Samples.run log Samples.down [Samples.Foo]).2 = None ∧
  (Samples.publish Samples.stub Samples.down Samples.Foo).1
  = Panicked nil_dereference ∧
  count "not_ok" (amqRequests
    (Samples.run Samples.stub Samples.down [Samples.Foo]).2) = 0.
Proof. repeat split; vm_compute; reflexivity. Qed.

(** ** Beyond the claims: every request under the package logger *)

Section Requests.

Variable cfg : Config.
Variable json_Unmarshal : list byte → Alerts → Alerts * option error.
Variable json_encode : JSON → list byte * option error.
Variable broker : Broker.

Local Abbreviation handler lg :=
  (alertPOSTHandler cfg json_Unmarshal json_encode broker lg).

(** A body that could not be read: the first 500 branch. *)
Lemma handler_read_fails lg ctx w body e :
  Request_Body ctx = (body, Some e) →
  ∃ w', handler lg ctx w
          = (match ExitFunc lg with
             | exit_process => Exited 1
             | exit_returns => Returned tt
             end, w') ∧
        wire w' = wire w ∧
        status w' = Some StatusInternalServerError ∧
        httpCounter w' = Inc "500" (httpCounter w) ∧
        amqRequests w' = amqRequests w ∧
        httpDuration w' = S (httpDuration w).
Proof.
  intros Hb. unfold alertPOSTHandler. rewrite Hb. step.
  destruct (ExitFunc lg); eexists; (split; [reflexivity|]); by repeat split.
Qed.

(** The two ways a request goes: it is refused with a 500 before any
    publish, or its body was read and decoded. *)
Lemma handler_cases ctx w :
  (∃ w', handler log ctx w = (Exited 1, w') ∧
         wire w' = wire w ∧
         status w' = Some StatusInternalServerError ∧
         httpCounter w' = Inc "500" (httpCounter w) ∧
         amqRequests w' = amqRequests w ∧
         httpDuration w' = S (httpDuration w)) ∨
  (∃ body alerts,
     Request_Body ctx = (body, None) ∧
     unmarshalAlerts json_Unmarshal body = (alerts, None)).
Proof.
  destruct (Request_Body ctx) as [body [e|]] eqn:Hb.
  - left. apply (handler_read_fails log ctx w body e Hb).
  - destruct (unmarshalAlerts json_Unmarshal body) as [alerts [e|]] eqn:Hu.
    + left.
      apply (handler_decode_fails cfg json_Unmarshal json_encode broker
               log ctx w body e Hb).
      by rewrite Hu.
    + right. by exists body, alerts.
Qed.

(** *** More on the shape of the traffic *)

Lemma forwarded_counts topic alerts new o :
  forwarded cfg json_encode topic alerts new o →
  length (disconnects new) ≤ length (sends new) ∧
  length (sends new) ≤ length (dials new) ∧
  length (dials new) ≤ length alerts ∧
  length (dials new) ≤ S (length (disconnects new)).
Proof.
  induction 1 as [|a rest x new o _ IH|a rest new Hst]; simpl.
  - lia.
  - lia.
  - destruct Hst; simpl; lia.
Qed.

Lemma forwarded_accepted topic alerts new o :
  forwarded cfg json_encode topic alerts new o →
  o = Returned tt → forallb accepted new = true.
Proof.
  induction 1 as [|a rest x new o _ IH|a rest new Hst]; intros Ho;
    [done| |done].
  simpl. by apply IH.
Qed.

Lemma forwarded_failure_last topic alerts new o :
  forwarded cfg json_encode topic alerts new o →
  ∀ i e, new !! i = Some e → accepted e = false → S i = length new.
Proof.
  induction 1 as [|a rest x new o _ IH|a rest new Hst]; intros i e Hi He.
  - done.
  - destruct i as [|[|[|i]]]; simpl in Hi.
    + injection Hi as <-. done.
    + injection Hi as <-. done.
    + injection Hi as <-. done.
    + simpl. f_equal. f_equal. f_equal. by eapply IH.
  - destruct Hst as [|e'|e']; destruct i as [|[|i]]; simpl in Hi; try done.
    injection Hi as <-. done.
Qed.

Lemma forwarded_of_request topic alerts new o :
  forwarded cfg json_encode topic alerts new o →
  Forall (of_request cfg topic) new.
Proof.
  induction 1 as [|a rest x new o _ IH|a rest new Hst].
  - constructor.
  - constructor; [left; eauto|].
    constructor; [right; left; eauto|].
    constructor; [right; right; eauto|done].
  - destruct Hst as [|e|e].
    + constructor.
    + constructor; [left; eauto|constructor].
    + constructor; [left; eauto|].
      constructor; [right; left; eauto|constructor].
Qed.

(** Every request, in one statement. *)
Lemma handler_run ctx w :
  ∃ o w' new,
    handler log ctx w = (o, w') ∧
    wire w' = wire w ++ new ∧
    ((o = Exited 1 ∧ new = [] ∧
      status w' = Some StatusInternalServerError ∧
      httpCounter w' = Inc "500" (httpCounter w) ∧
      amqRequests w' = amqRequests w ∧
      httpDuration w' = S (httpDuration w)) ∨
     (∃ body alerts,
        Request_Body ctx = (body, None) ∧
        unmarshalAlerts json_Unmarshal body = (alerts, None) ∧
        forwarded cfg json_encode (Params_topic ctx)
          (Alerts_Alerts alerts) new o ∧
        amqRequests w'
          = Nat.iter (length (disconnects new)) (Inc "ok")
              (amqRequests w) ∧
        (o = Returned tt →
           status w' = Some StatusOK ∧
           httpCounter w' = Inc "200" (httpCounter w) ∧
           httpDuration w' = S (httpDuration w)) ∧
        (o = Exited 1 →
           status w' = status w ∧ httpCounter w' = httpCounter w ∧
           httpDuration w' = httpDuration w))).
Proof.
  destruct (handler_cases ctx w)
    as [(w' & Hrun & Hw & Hs & Hc & Ha & Hd)|(body & alerts & Hb & Hu)].
  - exists (Exited 1), w', []. rewrite app_nil_r.
    split; [done|]. split; [done|]. left. by repeat split.
  - destruct (handler_forwarded cfg json_Unmarshal json_encode broker
                ctx w body alerts Hb Hu)
      as (o & w' & new & Hrun & Hw & Hf & Ha & Hret & Hexit).
    exists o, w', new. split; [done|]. split; [done|]. right.
    by exists body, alerts.
Qed.

(** With a broker that takes every connection and every frame, and alerts
    that marshal, the loop runs to its end. *)
Lemma loop_accepting topic alerts :
  (∀ tr, Dial_err broker tr = None) →
  (∀ tr d c b, Send_err broker tr d c b = None) →
  Forall (λ a, (json_Marshal json_encode a).2 = None) alerts →
  ∀ w, ∃ w',
    for_range alerts (forward_one cfg json_encode broker log topic) w
    = (Returned tt, w').
Proof.
  intros Hdial Hsend. induction 1 as [|a rest Ha _ IH]; intros w.
  - by exists w.
  - destruct (forward_one_done cfg json_encode broker log topic a w Ha
                (Hdial _) (Hsend _ _ _ _)) as (w1 & Hrun & _).
    simpl. unfold bind at 1. rewrite Hrun. apply IH.
Qed.

End Requests.

(** ** The traffic of the loop, exactly *)

Section InOrder.

Variable cfg : Config.
Variable json_encode : JSON → list byte * option error.
Variable broker : Broker.

Lemma forward_one_exits topic a w w1 :
  sendAlertToStomp cfg json_encode broker log topic a w = (Exited 1, w1) →
  forward_one cfg json_encode broker log topic a w = (Exited 1, w1).
Proof. intros Hrun. unfold forward_one, bind. by rewrite Hrun. Qed.

Lemma loop_in_order topic alerts : ∀ w,
  wire (for_range alerts (forward_one cfg json_encode broker log topic) w).2
  = wire w ++ published_in_order cfg json_encode broker (wire w) topic alerts.
Proof.
  induction alerts as [|a rest IH]; intros w; simpl.
  - by rewrite app_nil_r.
  - destruct (json_Marshal json_encode a) as [msg [e|]] eqn:Hm.
    + destruct (publish_marshal_fails_exit cfg json_encode broker log
                  topic a w msg e eq_refl Hm) as (w1 & Hrun & Hw & _).
      unfold bind at 1. rewrite (forward_one_exits _ _ _ _ Hrun). simpl.
      by rewrite app_nil_r.
    + destruct (dial_answer broker (wire w)) as [e|] eqn:Hd.
      * destruct (publish_dial_fails_exit cfg json_encode broker log
                    topic a w msg e eq_refl Hm Hd) as (w1 & Hrun & Hw & _).
        unfold bind at 1. by rewrite (forward_one_exits _ _ _ _ Hrun).
      * destruct (send_answer cfg broker (wire w) topic msg) as [e|] eqn:Hs.
        -- destruct (publish_send_fails_exit cfg json_encode broker log
                       topic a w msg e eq_refl Hm Hd Hs)
             as (w1 & Hrun & Hw & _).
           unfold bind at 1. by rewrite (forward_one_exits _ _ _ _ Hrun).
        -- assert ((json_Marshal json_encode a).2 = None) as Hm2
             by (by rewrite Hm).
           assert ((json_Marshal json_encode a).1 = msg) as Hm1
             by (by rewrite Hm).
           rewrite <- Hm1 in Hs.
           destruct (forward_one_done cfg json_encode broker log topic a w
                       Hm2 Hd Hs) as (w1 & Hrun & Hw1 & _).
           unfold bind at 1. rewrite Hrun, IH, Hw1, Hm1, <- app_assoc.
           done.
Qed.

Lemma handler_in_order json_Unmarshal ctx w body alerts :
  Request_Body ctx = (body, None) →
  unmarshalAlerts json_Unmarshal body = (alerts, None) →
  wire (alertPOSTHandler cfg json_Unmarshal json_encode broker log ctx w).2
  = wire w ++
    published_in_order cfg json_encode broker (wire w) (Params_topic ctx)
      (Alerts_Alerts alerts).
Proof.
  intros Hb Hu. rewrite <- loop_in_order.
  unfold alertPOSTHandler. rewrite Hb, Hu. unfold bind at 1.
  by destruct (for_range _ _ w) as [[[]|code|msg] w1].
Qed.

(** With a broker that takes everything and alerts that marshal, a
    decoded batch is answered. *)
Lemma handler_accepting json_Unmarshal ctx w body alerts :
  Request_Body ctx = (body, None) →
  unmarshalAlerts json_Unmarshal body = (alerts, None) →
  Forall (λ a, (json_Marshal json_encode a).2 = None)
    (Alerts_Alerts alerts) →
  (∀ tr, Dial_err broker tr = None) →
  (∀ tr d c b, Send_err broker tr d c b = None) →
  (alertPOSTHandler cfg json_Unmarshal json_encode broker log ctx w).1
  = Returned tt.
Proof.
  intros Hb Hu Hm Hdial Hsend.
  destruct (loop_accepting cfg json_encode broker (Params_topic ctx)
              (Alerts_Alerts alerts) Hdial Hsend Hm w) as (w1 & Hloop).
  unfold alertPOSTHandler. rewrite Hb, Hu. unfold bind at 1.
  by rewrite Hloop.
Qed.

End InOrder.

(** ** The decoder on payloads that fit *)


Section Fitting.

Variable float64 : string → option string.






End Fitting.

(** ** Claims on decoding, order and labels *)




(** C8. For every decoded batch the publishes go out one after the other
    and in the order of the batch.  The traffic of the call is exactly
    what publishing the alerts in order, each in a connection of its own,
    puts on the wire until the first publish that fails: a sequence of
    round trips (connect, one frame, disconnect), each closed before the
    next opens; the i-th frame handed to the broker is addressed to the
    topic of the request and carries the serialization of the i-th alert;
    and when every alert marshals and the broker takes every connection
    and every frame, the handler returns and there is one frame for each
    alert of the batch. *)
Theorem publishes_follow_batch_order
    cfg json_Unmarshal json_encode broker ctx w body alerts :
  Request_Body ctx = (body, None) →
  unmarshalAlerts json_Unmarshal body = (alerts, None) →
  ∃ o w' new,
    alertPOSTHandler cfg json_Unmarshal json_encode broker log ctx w
      = (o, w') ∧
    wire w' = wire w ++ new ∧
    new = published_in_order cfg json_encode broker (wire w)
            (Params_topic ctx) (Alerts_Alerts alerts) ∧
    round_trips new = true ∧
    (∀ i m, sends new !! i = Some m →
       ∃ a, Alerts_Alerts alerts !! i = Some a ∧
            m = (Params_topic ctx, "application/json",
                 (json_Marshal json_encode a).1)) ∧
    (o = Returned tt → length (sends new) = length (Alerts_Alerts alerts)) ∧
    (Forall (λ a, (json_Marshal json_encode a).2 = None)
       (Alerts_Alerts alerts) →
     (∀ tr, Dial_err broker tr = None) →
     (∀ tr d c b, Send_err broker tr d c b = None) →
     o = Returned tt ∧
     sends new
     = map (λ a, (Params_topic ctx, "application/json",
                  (json_Marshal json_encode a).1))
         (Alerts_Alerts alerts)).
Proof.
  intros Hb Hu.
  destruct (handler_forwarded cfg json_Unmarshal json_encode broker
              ctx w body alerts Hb Hu)
    as (o & w' & new & Hrun & Hw & Hf & _).
  assert (new = published_in_order cfg json_encode broker (wire w)
                  (Params_topic ctx) (Alerts_Alerts alerts)) as Hnew.
  { pose proof (handler_in_order cfg json_encode broker json_Unmarshal
                  ctx w body alerts Hb Hu) as Hin.
    rewrite Hrun in Hin. simpl in Hin. rewrite Hw in Hin.
    by apply app_inv_head in Hin. }
  exists o, w', new. split_and!; try done.
  - by eapply forwarded_round_trips.
  - intros i m Hi.
    destruct (forwarded_sends _ _ _ _ _ _ Hf) as [n Hn].
    rewrite Hn in Hi.
    apply list_lookup_fmap_Some in Hi as (a & -> & Ha).
    apply lookup_take_Some in Ha as [Ha _]. by exists a.
  - intros Ho.
    destruct (forwarded_returned _ _ _ _ _ _ Hf Ho) as (_ & _ & Hs).
    by rewrite Hs, length_map.
  - intros Hm Hdial Hsend.
    pose proof (handler_accepting cfg json_encode broker json_Unmarshal
                  ctx w body alerts Hb Hu Hm Hdial Hsend) as Ho.
    rewrite Hrun in Ho. simpl in Ho. split; [done|].
    by destruct (forwarded_returned _ _ _ _ _ _ Hf Ho) as (_ & _ & Hs).
Qed.

Lemma publishes_follow_batch_order_witness :
  ∃ o w' new,
    alertPOSTHandler Samples.cfg (Unmarshal Samples.float64 Samples.parse)
      Samples.encode Samples.sticky log
      (Samples.post (Samples.payload [Samples.Foo; Samples.Bar]))
      World_zero = (o, w') ∧
    wire w' = wire World_zero ++ new ∧
    new = published_in_order Samples.cfg Samples.encode Samples.sticky
            (wire World_zero)
            (Params_topic
               (Samples.post (Samples.payload [Samples.Foo; Samples.Bar])))
            (Alerts_Alerts (Samples.batch [Samples.Foo; Samples.Bar])) ∧
    round_trips new = true ∧
    (∀ i m, sends new !! i = Some m →
       ∃ a, Alerts_Alerts (Samples.batch [Samples.Foo; Samples.Bar]) !! i
              = Some a ∧
            m = (Params_topic
                   (Samples.post
                      (Samples.payload [Samples.Foo; Samples.Bar])),
                 "application/json",
                 (json_Marshal Samples.encode a).1)) ∧
    (o = Returned tt →
       length (sends new)
       = length (Alerts_Alerts
                   (Samples.batch [Samples.Foo; Samples.Bar]))) ∧
    (Forall (λ a, (json_Marshal Samples.encode a).2 = None)
       (Alerts_Alerts (Samples.batch [Samples.Foo; Samples.Bar])) →
     (∀ tr, Dial_err Samples.sticky tr = None) →
     (∀ tr d c b, Send_err Samples.sticky tr d c b = None) →
     o = Returned tt ∧
     sends new
     = map (λ a, (Params_topic
                    (Samples.post
                       (Samples.payload [Samples.Foo; Samples.Bar])),
                  "application/json",
                  (json_Marshal Samples.encode a).1))
         (Alerts_Alerts (Samples.batch [Samples.Foo; Samples.Bar]))).
Proof.
  apply (publishes_follow_batch_order Samples.cfg
           (Unmarshal Samples.float64 Samples.parse) Samples.encode
           Samples.sticky
           (Samples.post (Samples.payload [Samples.Foo; Samples.Bar]))
           World_zero
           (Samples.text (Samples.payload [Samples.Foo; Samples.Bar]))
           (Samples.batch [Samples.Foo; Samples.Bar])).
  - reflexivity.
  - vm_compute. reflexivity.
Defined.

Lemma marshal_carries_labels (a : Alert) :
  carries_labels (marshal_Alert a) (Labels a).
Proof. exact (labels_survive_marshal a). Qed.

(** C9. For every alert that came out of the decoder, what [json.Marshal]
    hands to the encoder for it is a value whose [labels] member holds
    exactly the pairs of the labels of the decoded alert, and that is the
    message which is published: the i-th frame of the request is the text
    of such a value for the i-th alert of the decoded batch, and when
    every alert marshals and the broker takes every connection and every
    frame, there is such a frame for each alert.  The text itself, and so
    its formatting, is the encoder's. *)
Theorem frames_carry_the_decoded_labels
    cfg json_Unmarshal json_encode broker ctx w body alerts :
  Request_Body ctx = (body, None) →
  unmarshalAlerts json_Unmarshal body = (alerts, None) →
  (∀ a, a ∈ Alerts_Alerts alerts →
     ∃ j, json_Marshal json_encode a = json_encode j ∧
          carries_labels j (Labels a)) ∧
  ∃ o w' new,
    alertPOSTHandler cfg json_Unmarshal json_encode broker log ctx w
      = (o, w') ∧
    wire w' = wire w ++ new ∧
    (∀ i m, sends new !! i = Some m →
       ∃ a j, Alerts_Alerts alerts !! i = Some a ∧
              json_Marshal json_encode a = json_encode j ∧
              carries_labels j (Labels a) ∧
              m = (Params_topic ctx, "application/json",
                   (json_encode j).1)) ∧
    (Forall (λ a, (json_Marshal json_encode a).2 = None)
       (Alerts_Alerts alerts) →
     (∀ tr, Dial_err broker tr = None) →
     (∀ tr d c b, Send_err broker tr d c b = None) →
     o = Returned tt ∧
     length (sends new) = length (Alerts_Alerts alerts)).
Proof.
  intros Hb Hu. split.
  { intros a _. exists (marshal_Alert a).
    split; [done|apply marshal_carries_labels]. }
  destruct (handler_forwarded cfg json_Unmarshal json_encode broker
              ctx w body alerts Hb Hu)
    as (o & w' & new & Hrun & Hw & Hf & _).
  exists o, w', new. split_and!; try done.
  - intros i m Hi.
    destruct (forwarded_sends _ _ _ _ _ _ Hf) as [n Hn].
    rewrite Hn in Hi.
    apply list_lookup_fmap_Some in Hi as (a & -> & Ha).
    apply lookup_take_Some in Ha as [Ha _].
    exists a, (marshal_Alert a). split_and!; try done.
    apply marshal_carries_labels.
  - intros Hm Hdial Hsend.
    pose proof (handler_accepting cfg json_encode broker json_Unmarshal
                  ctx w body alerts Hb Hu Hm Hdial Hsend) as Ho.
    rewrite Hrun in Ho. simpl in Ho. split; [done|].
    destruct (forwarded_returned _ _ _ _ _ _ Hf Ho) as (_ & _ & Hs).
    by rewrite Hs, length_map.
Qed.

Lemma frames_carry_the_decoded_labels_witness :
  (∀ a, a ∈ Alerts_Alerts (Samples.batch [Samples.Foo; Samples.Bar]) →
     ∃ j, json_Marshal Samples.encode a = Samples.encode j ∧
          carries_labels j (Labels a)) ∧
  ∃ o w' new,
    alertPOSTHandler Samples.cfg (Unmarshal Samples.float64 Samples.parse)
      Samples.encode Samples.up log
      (Samples.post (Samples.payload [Samples.Foo; Samples.Bar]))
      World_zero = (o, w') ∧
    wire w' = wire World_zero ++ new ∧
    (∀ i m, sends new !! i = Some m →
       ∃ a j, Alerts_Alerts (Samples.batch [Samples.Foo; Samples.Bar]) !! i
                = Some a ∧
              json_Marshal Samples.encode a = Samples.encode j ∧
              carries_labels j (Labels a) ∧
              m = (Params_topic
                     (Samples.post
                        (Samples.payload [Samples.Foo; Samples.Bar])),
                   "application/json",
                   (Samples.encode j).1)) ∧
    (Forall (λ a, (json_Marshal Samples.encode a).2 = None)
       (Alerts_Alerts (Samples.batch [Samples.Foo; Samples.Bar])) →
     (∀ tr, Dial_err Samples.up tr = None) →
     (∀ tr d c b, Send_err Samples.up tr d c b = None) →
     o = Returned tt ∧
     length (sends new)
     = length (Alerts_Alerts (Samples.batch [Samples.Foo; Samples.Bar]))).
Proof.
  apply (frames_carry_the_decoded_labels Samples.cfg
           (Unmarshal Samples.float64 Samples.parse) Samples.encode
           Samples.up
           (Samples.post (Samples.payload [Samples.Foo; Samples.Bar]))
           World_zero
           (Samples.text (Samples.payload [Samples.Foo; Samples.Bar]))
           (Samples.batch [Samples.Foo; Samples.Bar])).
  - reflexivity.
  - vm_compute. reflexivity.
Defined.




(** ** Properties beyond the claims *)

(** X1. A request whose body cannot be read is refused before anything is
    decoded or published: a 500 is written and counted, one duration is
    observed, the traffic with the broker and the publish counters are
    unchanged, and the fatal log entry ends the process with status 1. *)
Theorem unread_body_publishes_nothing
    cfg json_Unmarshal json_encode broker ctx w body e :
  Request_Body ctx = (body, Some e) →
  ∃ w', alertPOSTHandler cfg json_Unmarshal json_encode broker log ctx w
          = (Exited 1, w') ∧
        status w' = Some 500%Z ∧
        count "500" (httpCounter w') = S (count "500" (httpCounter w)) ∧
        httpDuration w' = S (httpDuration w) ∧
        wire w' = wire w ∧
        amqRequests w' = amqRequests w.
Proof.
  intros Hb.
  destruct (handler_read_fails cfg json_Unmarshal json_encode broker
              log ctx w body e Hb) as (w' & Hrun & Hw & Hs & Hc & Ha & Hd).
  exists w'. simpl in Hrun. rewrite Hc, count_Inc_same. by repeat split.
Qed.

Lemma unread_body_publishes_nothing_witness :
  ∃ w', alertPOSTHandler Samples.cfg (Samples.decode [Samples.Foo])
          Samples.encode Samples.up log Samples.unreadable World_zero
          = (Exited 1, w') ∧
        status w' = Some 500%Z ∧
        count "500" (httpCounter w')
          = S (count "500" (httpCounter World_zero)) ∧
        httpDuration w' = S (httpDuration World_zero) ∧
        wire w' = wire World_zero ∧
        amqRequests w' = amqRequests World_zero.
Proof.
  apply (unread_body_publishes_nothing Samples.cfg
           (Samples.decode [Samples.Foo]) Samples.encode Samples.up
           Samples.unreadable World_zero [] "unexpected EOF");
    reflexivity.
Defined.

(** X2. Whatever the request, the decoder and the broker, the handler
    under the package logger returns or ends the process with status 1: it
    never panics, so the send step never runs on a nil connection. *)
Theorem handler_returns_or_exits
    cfg json_Unmarshal json_encode broker ctx w :
  (alertPOSTHandler cfg json_Unmarshal json_encode broker log ctx w).1
  = Returned tt ∨
  (alertPOSTHandler cfg json_Unmarshal json_encode broker log ctx w).1
  = Exited 1.
Proof.
  destruct (handler_run cfg json_Unmarshal json_encode broker ctx w)
    as (o & w' & new & -> & _ & [(-> & _)|(body & alerts & _ & _ & Hf & _)]).
  - by right.
  - apply (forwarded_outcome _ _ _ _ _ _ Hf).
Qed.

(** X3. No request ever moves the [not_ok] counter of the publishes: the
    line that counts it follows a publish call that returned an error, and
    under the package logger no publish call does. *)
Theorem not_ok_is_never_counted
    cfg json_Unmarshal json_encode broker ctx w :
  count "not_ok"
    (amqRequests
       (alertPOSTHandler cfg json_Unmarshal json_encode broker log ctx w).2)
  = count "not_ok" (amqRequests w).
Proof.
  destruct (handler_run cfg json_Unmarshal json_encode broker ctx w)
    as (o & w' & new & -> & _ &
        [(_ & _ & _ & _ & Ha & _)|(body & alerts & _ & _ & _ & Ha & _)]);
    simpl; rewrite Ha; [done|].
  by rewrite count_iter_other.
Qed.

(** X4. For a body that decodes, the [ok] counter grows by the number of
    round trips that were closed by a disconnect, and the traffic never
    holds more than one connection per alert, more frames than
    connections, or more disconnects than frames; at most one connection
    was left without its disconnect. *)
Theorem ok_counts_closed_round_trips
    cfg json_Unmarshal json_encode broker ctx w body alerts :
  Request_Body ctx = (body, None) →
  unmarshalAlerts json_Unmarshal body = (alerts, None) →
  ∃ o w' new,
    alertPOSTHandler cfg json_Unmarshal json_encode broker log ctx w
      = (o, w') ∧
    wire w' = wire w ++ new ∧
    count "ok" (amqRequests w')
      = count "ok" (amqRequests w) + length (disconnects new) ∧
    length (disconnects new) ≤ length (sends new) ∧
    length (sends new) ≤ length (dials new) ∧
    length (dials new) ≤ length (Alerts_Alerts alerts) ∧
    length (dials new) ≤ S (length (disconnects new)).
Proof.
  intros Hb Hu.
  destruct (handler_forwarded cfg json_Unmarshal json_encode broker
              ctx w body alerts Hb Hu)
    as (o & w' & new & Hrun & Hw & Hf & Ha & _).
  exists o, w', new. rewrite Ha, count_iter_same.
  destruct (forwarded_counts _ _ _ _ _ _ Hf) as (H1 & H2 & H3 & H4).
  by repeat split.
Qed.

Lemma ok_counts_closed_round_trips_witness :
  ∃ o w' new,
    alertPOSTHandler Samples.cfg
      (Samples.decode [Samples.Foo; Samples.Bar; Samples.Baz])
      Samples.encode (Samples.refuses_frame 1) log Samples.request
      World_zero = (o, w') ∧
    wire w' = wire World_zero ++ new ∧
    count "ok" (amqRequests w')
      = count "ok" (amqRequests World_zero) + length (disconnects new) ∧
    length (disconnects new) ≤ length (sends new) ∧
    length (sends new) ≤ length (dials new) ∧
    length (dials new)
      ≤ length (Alerts_Alerts
                  (Samples.batch [Samples.Foo; Samples.Bar; Samples.Baz])) ∧
    length (dials new) ≤ S (length (disconnects new)).
Proof.
  apply (ok_counts_closed_round_trips Samples.cfg
           (Samples.decode [Samples.Foo; Samples.Bar; Samples.Baz])
           Samples.encode (Samples.refuses_frame 1) Samples.request
           World_zero Samples.body
           (Samples.batch [Samples.Foo; Samples.Bar; Samples.Baz]));
    reflexivity.
Defined.

(** X5. A handler that returns has written 200, and every connection and
    every frame of the request was taken by the broker: the traffic holds
    as many connections as frames as disconnects, and no event with an
    error other than, possibly, a disconnect. *)
Theorem returned_means_all_accepted
    cfg json_Unmarshal json_encode broker ctx w :
  (alertPOSTHandler cfg json_Unmarshal json_encode broker log ctx w).1
  = Returned tt →
  status (alertPOSTHandler cfg json_Unmarshal json_encode broker log
            ctx w).2 = Some 200%Z ∧
  ∃ new,
    wire (alertPOSTHandler cfg json_Unmarshal json_encode broker log
            ctx w).2 = wire w ++ new ∧
    forallb accepted new = true ∧
    length (dials new) = length (sends new) ∧
    length (sends new) = length (disconnects new).
Proof.
  destruct (handler_run cfg json_Unmarshal json_encode broker ctx w)
    as (o & w' & new & -> & Hw &
        [(-> & _)|(body & alerts & _ & _ & Hf & _ & Hret & _)]);
    simpl; intros Ho; [done|].
  destruct (Hret Ho) as (Hs & _). split; [done|].
  exists new. split; [done|]. split; [by eapply forwarded_accepted|].
  destruct (forwarded_returned _ _ _ _ _ _ Hf Ho) as (Hx & Hd & Hsends).
  rewrite Hx, Hd, Hsends, length_map. done.
Qed.

Lemma returned_means_all_accepted_witness :
  status (alertPOSTHandler Samples.cfg
            (Samples.decode [Samples.Foo; Samples.Bar]) Samples.encode
            Samples.sticky log Samples.request World_zero).2
  = Some 200%Z ∧
  ∃ new,
    wire (alertPOSTHandler Samples.cfg
            (Samples.decode [Samples.Foo; Samples.Bar]) Samples.encode
            Samples.sticky log Samples.request World_zero).2
    = wire World_zero ++ new ∧
    forallb accepted new = true ∧
    length (dials new) = length (sends new) ∧
    length (sends new) = length (disconnects new).
Proof.
  apply (returned_means_all_accepted Samples.cfg
           (Samples.decode [Samples.Foo; Samples.Bar]) Samples.encode
           Samples.sticky Samples.request World_zero).
  vm_compute. reflexivity.
Defined.

(** X6. Nothing follows a failure: in the traffic of a request, a refused
    connection or a frame that was not taken is the last event. *)
Theorem nothing_follows_a_failure
    cfg json_Unmarshal json_encode broker ctx w :
  ∃ new,
    wire (alertPOSTHandler cfg json_Unmarshal json_encode broker log
            ctx w).2 = wire w ++ new ∧
    ∀ i e, new !! i = Some e → accepted e = false → S i = length new.
Proof.
  destruct (handler_run cfg json_Unmarshal json_encode broker ctx w)
    as (o & w' & new & -> & Hw &
        [(_ & -> & _)|(body & alerts & _ & _ & Hf & _)]);
    simpl; exists new + exists []; (split; [done|]).
  - by intros [|i] e.
  - by eapply forwarded_failure_last.
Qed.

(** X7. With a broker that takes every connection and every frame, and a
    batch whose alerts all marshal, the handler returns with 200 after one
    frame per alert, in order, and [ok] grows by the size of the batch,
    whatever the broker answers to the disconnects. *)
Theorem accepting_broker_is_answered_200
    cfg json_Unmarshal json_encode broker ctx w body alerts :
  Request_Body ctx = (body, None) →
  unmarshalAlerts json_Unmarshal body = (alerts, None) →
  Forall (λ a, (json_Marshal json_encode a).2 = None)
    (Alerts_Alerts alerts) →
  (∀ tr, Dial_err broker tr = None) →
  (∀ tr d c b, Send_err broker tr d c b = None) →
  ∃ w' new,
    alertPOSTHandler cfg json_Unmarshal json_encode broker log ctx w
      = (Returned tt, w') ∧
    status w' = Some 200%Z ∧
    wire w' = wire w ++ new ∧
    sends new
      = map (λ a, (Params_topic ctx, "application/json",
                   (json_Marshal json_encode a).1))
          (Alerts_Alerts alerts) ∧
    count "ok" (amqRequests w')
      = count "ok" (amqRequests w) + length (Alerts_Alerts alerts).
Proof.
  intros Hb Hu Hm Hdial Hsend.
  destruct (handler_forwarded cfg json_Unmarshal json_encode broker
              ctx w body alerts Hb Hu)
    as (o & w' & new & Hrun & Hw & Hf & Ha & Hret & _).
  destruct (loop_accepting cfg json_encode broker (Params_topic ctx)
              (Alerts_Alerts alerts) Hdial Hsend Hm w) as (w1 & Hloop).
  assert (o = Returned tt) as ->.
  { revert Hrun. unfold alertPOSTHandler. rewrite Hb, Hu.
    unfold bind at 1. rewrite Hloop. step. by intros [= <- _]. }
  destruct (Hret eq_refl) as (Hs & _).
  destruct (forwarded_returned _ _ _ _ _ _ Hf eq_refl) as (Hx & _ & Hsends).
  exists w', new. rewrite Ha, count_iter_same, Hx. by repeat split.
Qed.

Lemma accepting_broker_is_answered_200_witness :
  ∃ w' new,
    alertPOSTHandler Samples.cfg
      (Samples.decode [Samples.Foo; Samples.Bar]) Samples.encode
      Samples.sticky log Samples.request World_zero
      = (Returned tt, w') ∧
    status w' = Some 200%Z ∧
    wire w' = wire World_zero ++ new ∧
    sends new
      = map (λ a, (Params_topic Samples.request, "application/json",
                   (json_Marshal Samples.encode a).1))
          (Alerts_Alerts (Samples.batch [Samples.Foo; Samples.Bar])) ∧
    count "ok" (amqRequests w')
      = count "ok" (amqRequests World_zero)
        + length (Alerts_Alerts (Samples.batch [Samples.Foo; Samples.Bar])).
Proof.
  apply (accepting_broker_is_answered_200 Samples.cfg
           (Samples.decode [Samples.Foo; Samples.Bar]) Samples.encode
           Samples.sticky Samples.request World_zero Samples.body
           (Samples.batch [Samples.Foo; Samples.Bar])).
  - reflexivity.
  - reflexivity.
  - repeat constructor.
  - reflexivity.
  - reflexivity.
Defined.

(** X8. A request puts nothing on the wire but connection attempts over
    tcp to the configured address with the configured credentials, JSON
    frames to its own topic, and disconnects. *)
Theorem traffic_follows_configuration
    cfg json_Unmarshal json_encode broker ctx w :
  ∃ new,
    wire (alertPOSTHandler cfg json_Unmarshal json_encode broker log
            ctx w).2 = wire w ++ new ∧
    Forall (of_request cfg (Params_topic ctx)) new.
Proof.
  destruct (handler_run cfg json_Unmarshal json_encode broker ctx w)
    as (o & w' & new & -> & Hw &
        [(_ & -> & _)|(body & alerts & _ & _ & Hf & _)]);
    simpl; exists new + exists []; (split; [done|]).
  - constructor.
  - by eapply forwarded_of_request.
Qed.

(** *** The publish call and the registry *)

(** X9. A publish call, on every path and under every logger, leaves the
    metrics and the response alone and only adds to the traffic: counting
    and answering are the handler's. *)
Theorem publish_leaves_metrics_alone
    cfg json_encode broker lg topic a w :
  untouched w (sendAlertToStomp cfg json_encode broker lg topic a w).2 ∧
  ∃ new,
    wire (sendAlertToStomp cfg json_encode broker lg topic a w).2
    = wire w ++ new.
Proof.
  unfold sendAlertToStomp.
  destruct (json_Marshal json_encode a) as [msg [e|]]; step.
  - destruct (ExitFunc lg); simpl;
      (split; [by repeat split|exists []; by rewrite app_nil_r]).
  - destruct (Dial_err broker (wire w)) as [e|]; simpl.
    + destruct (ExitFunc lg); simpl; (split; [by repeat split|by eexists]).
    + destruct (Send_err broker _ topic "application/json" msg) as [e|];
        simpl.
      * destruct (ExitFunc lg); simpl;
          (split; [by repeat split|]); eexists; by rewrite <- !app_assoc.
      * split; [by repeat split|]. eexists. by rewrite <- !app_assoc.
Qed.

Lemma count_Inc_le label label' c :
  count label' c ≤ count label' (Inc label c).
Proof.
  destruct (decide (label = label')) as [->|Hne].
  - rewrite count_Inc_same. lia.
  - by rewrite count_Inc_other.
Qed.

Lemma count_iter_le label label' n c :
  count label' c ≤ count label' (Nat.iter n (Inc label) c).
Proof.
  induction n as [|n IH]; simpl; [done|].
  etrans; [exact IH|apply count_Inc_le].
Qed.

(** X10. The counters only grow: whatever the request, under every label
    the HTTP counter and the publish counter are afterwards at least what
    they were. *)
Theorem counters_never_decrease
    cfg json_Unmarshal json_encode broker ctx w label :
  count label (httpCounter w)
  ≤ count label
      (httpCounter
         (alertPOSTHandler cfg json_Unmarshal json_encode broker log
            ctx w).2) ∧
  count label (amqRequests w)
  ≤ count label
      (amqRequests
         (alertPOSTHandler cfg json_Unmarshal json_encode broker log
            ctx w).2).
Proof.
  destruct (handler_run cfg json_Unmarshal json_encode broker ctx w)
    as (o & w' & new & -> & _ &
        [(_ & _ & _ & Hc & Ha & _)|
         (body & alerts & _ & _ & Hf & Ha & Hret & Hexit)]); simpl.
  - rewrite Hc, Ha. split; [apply count_Inc_le|done].
  - rewrite Ha. split; [|apply count_iter_le].
    destruct (forwarded_outcome _ _ _ _ _ _ Hf) as [Ho|Ho].
    + destruct (Hret Ho) as (_ & -> & _). apply count_Inc_le.
    + destruct (Hexit Ho) as (_ & -> & _). done.
Qed.

(** X11. The duration histogram keeps step with the HTTP counter: if there
    are as many observations as answers counted under 200 and 500 before
    a request, there are as many after it.  A request whose publish fails
    adds to neither. *)
Theorem histogram_keeps_step
    cfg json_Unmarshal json_encode broker ctx w :
  in_step w →
  in_step
    (alertPOSTHandler cfg json_Unmarshal json_encode broker log ctx w).2.
Proof.
  unfold in_step. intros Hw.
  destruct (handler_run cfg json_Unmarshal json_encode broker ctx w)
    as (o & w' & new & -> & _ &
        [(_ & _ & _ & Hc & _ & Hd)|
         (body & alerts & _ & _ & Hf & _ & Hret & Hexit)]); simpl.
  - rewrite Hc, Hd, count_Inc_same, count_Inc_other by done. lia.
  - destruct (forwarded_outcome _ _ _ _ _ _ Hf) as [Ho|Ho].
    + destruct (Hret Ho) as (_ & -> & ->).
      rewrite count_Inc_same, count_Inc_other by done. lia.
    + destruct (Hexit Ho) as (_ & -> & ->). done.
Qed.

Lemma histogram_keeps_step_witness :
  in_step
    (alertPOSTHandler Samples.cfg
       (Samples.decode [Samples.Foo; Samples.Bar]) Samples.encode
       Samples.up log Samples.request World_zero).2.
Proof.
  apply (histogram_keeps_step Samples.cfg
           (Samples.decode [Samples.Foo; Samples.Bar]) Samples.encode
           Samples.up Samples.request World_zero).
  reflexivity.
Defined.

(** *** The log *)

Lemma logs_well_ret {A : Type} (a : A) : logs_well (ret a).
Proof. intros w. exists []. simpl. by rewrite app_nil_r. Qed.

Lemma logs_well_bind {A B : Type} (c : M A) (k : A → M B) :
  logs_well c → (∀ a, logs_well (k a)) → logs_well (bind c k).
Proof.
  intros Hc Hk w. unfold bind.
  destruct (Hc w) as (l1 & Hl1 & H1).
  destruct (c w) as [[a|code|msg] w1]; simpl in *.
  - destruct (Hk a w1) as (l2 & Hl2 & H2).
    exists (l1 ++ l2). rewrite Hl2, Hl1, app_assoc. split; [done|].
    destruct (k a w1) as [[b|code|msg] w2]; simpl in *.
    + rewrite forallb_app. by rewrite H1, H2.
    + destruct H2 as (-> & before & format & -> & Hb).
      split; [done|]. exists (l1 ++ before), format.
      rewrite app_assoc, forallb_app, H1, Hb. done.
    + rewrite forallb_app. by rewrite H1, H2.
  - by exists l1.
  - by exists l1.
Qed.

Lemma logs_well_quiet {A : Type} (c : M A) :
  (∀ w, logged (c w).2 = logged w ∧
        ∀ code, (c w).1 ≠ Exited code) →
  logs_well c.
Proof.
  intros Hc w. destruct (Hc w) as [Hl Hx]. exists [].
  rewrite app_nil_r. split; [done|].
  destruct (c w).1 as [a|code|msg]; try done. by destruct (Hx code).
Qed.

Lemma logs_well_Infof lg format : logs_well (Infof lg format).
Proof. intros w. by exists [(InfoLevel, format)]. Qed.

Lemma logs_well_Fatalf format : logs_well (Fatalf log format).
Proof.
  intros w. exists [(FatalLevel, format)]. simpl.
  split; [done|]. split; [done|]. by exists [], format.
Qed.

Lemma logs_well_for_range {A : Type} (xs : list A) (body : A → M unit) :
  (∀ x, logs_well (body x)) → logs_well (for_range xs body).
Proof.
  intros Hb. induction xs as [|x rest IH]; simpl.
  - apply logs_well_ret.
  - apply logs_well_bind; [apply Hb|by intros _].
Qed.

Ltac quiet :=
  apply logs_well_quiet; intros ?; step;
  repeat match goal with
         | |- context [match ?x with _ => _ end] => destruct x; simpl
         end;
  by split.

Lemma logs_well_publish cfg json_encode broker topic a :
  logs_well (sendAlertToStomp cfg json_encode broker log topic a).
Proof.
  unfold sendAlertToStomp.
  destruct (json_Marshal json_encode a) as [msg [e|]].
  - apply logs_well_bind; [apply logs_well_Fatalf|intros _].
    apply logs_well_ret.
  - apply logs_well_bind; [apply logs_well_Infof|intros _].
    apply logs_well_bind; [quiet|intros [conn [e|]]].
    + apply logs_well_bind; [apply logs_well_Fatalf|intros _].
      apply logs_well_bind; [quiet|intros [e'|]].
      * apply logs_well_bind; [apply logs_well_Fatalf|intros _].
        apply logs_well_ret.
      * apply logs_well_bind; [quiet|intros _]. apply logs_well_ret.
    + apply logs_well_bind; [apply logs_well_Infof|intros _].
      apply logs_well_bind; [quiet|intros [e'|]].
      * apply logs_well_bind; [apply logs_well_Fatalf|intros _].
        apply logs_well_ret.
      * apply logs_well_bind; [quiet|intros _]. apply logs_well_ret.
Qed.

Lemma logs_well_forward_one cfg json_encode broker topic a :
  logs_well (forward_one cfg json_encode broker log topic a).
Proof.
  unfold forward_one.
  apply logs_well_bind; [apply logs_well_publish|intros [e|]].
  - apply logs_well_bind; [|intros _; quiet].
    apply logs_well_bind; [quiet|intros _].
    apply logs_well_bind; [quiet|intros _]. apply logs_well_Fatalf.
  - apply logs_well_bind; [apply logs_well_ret|intros _; quiet].
Qed.

Lemma logs_well_handler cfg json_Unmarshal json_encode broker ctx :
  logs_well (alertPOSTHandler cfg json_Unmarshal json_encode broker log ctx).
Proof.
  unfold alertPOSTHandler.
  destruct (Request_Body ctx) as [body [e|]].
  - apply logs_well_bind; [quiet|intros _].
    apply logs_well_bind; [quiet|intros _].
    apply logs_well_bind; [quiet|intros _].
    apply logs_well_bind; [apply logs_well_Fatalf|intros _].
    apply logs_well_ret.
  - destruct (unmarshalAlerts json_Unmarshal body) as [alerts [e|]].
    + apply logs_well_bind; [quiet|intros _].
      apply logs_well_bind; [quiet|intros _].
      apply logs_well_bind; [quiet|intros _].
      apply logs_well_bind; [apply logs_well_Fatalf|intros _].
      apply logs_well_ret.
    + apply logs_well_bind.
      { apply logs_well_for_range. intros a. apply logs_well_forward_one. }
      intros _.
      apply logs_well_bind; [quiet|intros _].
      apply logs_well_bind; [quiet|intros _]. quiet.
Qed.

(** X13. The log tells how a request ended: a handler that returns has
    written informational entries only, and a process that exits has
    written informational entries closed by one fatal entry, the last
    thing it did. *)
Theorem fatal_entry_closes_the_log
    cfg json_Unmarshal json_encode broker ctx w :
  ∃ entries,
    logged (alertPOSTHandler cfg json_Unmarshal json_encode broker log
              ctx w).2 = logged w ++ entries ∧
    (((alertPOSTHandler cfg json_Unmarshal json_encode broker log
         ctx w).1 = Returned tt ∧
      forallb is_info entries = true) ∨
     ((alertPOSTHandler cfg json_Unmarshal json_encode broker log
         ctx w).1 = Exited 1 ∧
      ∃ before format,
        entries = before ++ [(FatalLevel, format)] ∧
        forallb is_info before = true)).
Proof.
  destruct (logs_well_handler cfg json_Unmarshal json_encode broker ctx w)
    as (entries & Hl & H).
  exists entries. split; [done|].
  destruct (handler_run cfg json_Unmarshal json_encode broker ctx w)
    as (o & w' & new & Hrun & _ & Hcases).
  rewrite Hrun in *. simpl in *.
  assert (o = Returned tt ∨ o = Exited 1) as [-> | ->].
  { destruct Hcases as [(-> & _)|(body & alerts & _ & _ & Hf & _)];
      [by right|].
    apply (forwarded_outcome _ _ _ _ _ _ Hf). }
  - by left.
  - right. split; [done|]. by destruct H as (_ & H).
Qed.

(** *** The publish call under the package logger *)

(** X14. A publish call under the package logger returns nil after a full
    round trip (connection, frame, disconnect) or ends the process with
    status 1 after traffic that stops short; it never returns an error,
    so the two return statements that carry one are never reached. *)
Theorem publish_returns_nil_or_exits
    cfg json_encode broker topic a w :
  ∃ new,
    wire (sendAlertToStomp cfg json_encode broker log topic a w).2
    = wire w ++ new ∧
    (((sendAlertToStomp cfg json_encode broker log topic a w).1
      = Returned None ∧
      ∃ x, new = [dialled cfg None;
                  framed topic (json_Marshal json_encode a).1 None;
                  EvDisconnect x]) ∨
     ((sendAlertToStomp cfg json_encode broker log topic a w).1
      = Exited 1 ∧
      stopped cfg topic (json_Marshal json_encode a).1 new)).
Proof.
  destruct (json_Marshal json_encode a) as [msg [e|]] eqn:Hm; simpl.
  - destruct (publish_marshal_fails_exit cfg json_encode broker log
                topic a w msg e eq_refl Hm) as (w' & -> & Hw & _).
    exists []. rewrite app_nil_r. split; [done|]. right.
    split; [done|constructor].
  - destruct (dial_answer broker (wire w)) as [e|] eqn:Hd.
    + destruct (publish_dial_fails_exit cfg json_encode broker log
                  topic a w msg e eq_refl Hm Hd) as (w' & -> & Hw & _).
      eexists. split; [exact Hw|]. right. split; [done|constructor].
    + destruct (send_answer cfg broker (wire w) topic msg) as [e|] eqn:Hs.
      * destruct (publish_send_fails_exit cfg json_encode broker log
                    topic a w msg e eq_refl Hm Hd Hs)
          as (w' & -> & Hw & _).
        eexists. split; [exact Hw|]. right. split; [done|constructor].
      * destruct (publish_done cfg json_encode broker log topic a w msg
                    Hm Hd Hs) as (w' & -> & Hw & _).
        eexists. split; [exact Hw|]. left. split; [done|by eexists].
Qed.

(** X15. An alert that does not marshal causes no traffic: the call ends
    before any connection is made, with the exit of the process or, under
    a logger whose exit function returns, with the marshalling error. *)
Theorem unmarshallable_alert_is_not_dialled
    cfg json_encode broker lg topic a w e :
  (json_Marshal json_encode a).2 = Some e →
  wire (sendAlertToStomp cfg json_encode broker lg topic a w).2 = wire w ∧
  (sendAlertToStomp cfg json_encode broker lg topic a w).1
  = match ExitFunc lg with
    | exit_process => Exited 1
    | exit_returns => Returned (Some e)
    end.
Proof.
  intros Hm. unfold sendAlertToStomp.
  destruct (json_Marshal json_encode a) as [msg err]. simpl in Hm.
  subst err. step. by destruct (ExitFunc lg).
Qed.

Lemma unmarshallable_alert_is_not_dialled_witness :
  wire (sendAlertToStomp Samples.cfg Samples.encode_fails Samples.up log
          "kubernetes" Samples.Foo World_zero).2 = wire World_zero ∧
  (sendAlertToStomp Samples.cfg Samples.encode_fails Samples.up log
     "kubernetes" Samples.Foo World_zero).1
  = match ExitFunc log with
    | exit_process => Exited 1
    | exit_returns => Returned (Some "json: unsupported value")
    end.
Proof.
  apply (unmarshallable_alert_is_not_dialled Samples.cfg
           Samples.encode_fails Samples.up log "kubernetes" Samples.Foo
           World_zero "json: unsupported value").
  reflexivity.
Defined.

(** *** What steers a request *)

Lemma wire_only_ret {A : Type} (a : A) : wire_only (ret a).
Proof. by intros w1 w2 Hw. Qed.

Lemma wire_only_bind {A B : Type} (c : M A) (k : A → M B) :
  wire_only c → (∀ a, wire_only (k a)) → wire_only (bind c k).
Proof.
  intros Hc Hk w1 w2 Hw. unfold bind.
  destruct (Hc w1 w2 Hw) as [Ho Hw'].
  destruct (c w1) as [o1 w1'], (c w2) as [o2 w2']. simpl in *. subst o2.
  destruct o1 as [a|code|msg]; [by apply Hk|done|done].
Qed.

Lemma wire_only_for_range {A : Type} (xs : list A) (body : A → M unit) :
  (∀ x, wire_only (body x)) → wire_only (for_range xs body).
Proof.
  intros Hb. induction xs as [|x rest IH]; simpl.
  - apply wire_only_ret.
  - apply wire_only_bind; [apply Hb|by intros _].
Qed.

Ltac steered :=
  repeat first
    [ apply wire_only_ret
    | apply wire_only_bind; [|intros ?]
    | match goal with
      | |- wire_only (match ?x with _ => _ end) => destruct x
      end
    | solve [intros ? ? Hw; step; rewrite ?Hw;
             repeat match goal with
                    | |- context [match ?x with _ => _ end] =>
                        destruct x; simpl
                    end;
             by rewrite ?Hw] ].

Lemma wire_only_publish cfg json_encode broker lg topic a :
  wire_only (sendAlertToStomp cfg json_encode broker lg topic a).
Proof.
  unfold sendAlertToStomp.
  destruct (json_Marshal json_encode a) as [msg [e|]]; steered.
Qed.

Lemma wire_only_forward_one cfg json_encode broker lg topic a :
  wire_only (forward_one cfg json_encode broker lg topic a).
Proof.
  unfold forward_one.
  apply wire_only_bind; [apply wire_only_publish|intros [e|]]; steered.
Qed.

(** X16. The metrics are sinks: nothing in a request reads them, nor the
    response or the log.  From two states of the process with the same
    traffic, a request ends the same way and with the same traffic,
    under every logger. *)
Theorem request_is_steered_by_traffic
    cfg json_Unmarshal json_encode broker lg ctx w1 w2 :
  wire w1 = wire w2 →
  (alertPOSTHandler cfg json_Unmarshal json_encode broker lg ctx w1).1
  = (alertPOSTHandler cfg json_Unmarshal json_encode broker lg ctx w2).1 ∧
  wire (alertPOSTHandler cfg json_Unmarshal json_encode broker lg
          ctx w1).2
  = wire (alertPOSTHandler cfg json_Unmarshal json_encode broker lg
            ctx w2).2.
Proof.
  revert w1 w2.
  change (wire_only
            (alertPOSTHandler cfg json_Unmarshal json_encode broker lg ctx)).
  unfold alertPOSTHandler.
  destruct (Request_Body ctx) as [body [e|]]; [steered|].
  destruct (unmarshalAlerts json_Unmarshal body) as [alerts [e|]];
    [steered|].
  apply wire_only_bind; [|intros _; steered].
  apply wire_only_for_range. intros a. apply wire_only_forward_one.
Qed.

Lemma request_is_steered_by_traffic_witness :
  (alertPOSTHandler Samples.cfg (Samples.decode [Samples.Foo])
     Samples.encode Samples.up log Samples.request World_zero).1
  = (alertPOSTHandler Samples.cfg (Samples.decode [Samples.Foo])
       Samples.encode Samples.up log Samples.request
       (mkWorld 7 ∅ ∅ (Some 500%Z) [] [])).1 ∧
  wire (alertPOSTHandler Samples.cfg (Samples.decode [Samples.Foo])
          Samples.encode Samples.up log Samples.request World_zero).2
  = wire (alertPOSTHandler Samples.cfg (Samples.decode [Samples.Foo])
            Samples.encode Samples.up log Samples.request
            (mkWorld 7 ∅ ∅ (Some 500%Z) [] [])).2.
Proof.
  apply (request_is_steered_by_traffic Samples.cfg
           (Samples.decode [Samples.Foo]) Samples.encode Samples.up log
           Samples.request World_zero (mkWorld 7 ∅ ∅ (Some 500%Z) [] [])).
  reflexivity.
Defined.
